(** * Microdata extraction: a shallow embedding of [microdata.py]

    The development follows the layout of the Python module: Python
    helpers (exceptions, [str.split], truthiness), the lxml element tree
    as the module reads it, the [Item] and [URI] classes, the text
    iterator, the property-value rule, and the two recursive functions
    [_extract] and [_find_items].  The theorems come last.

    Strings are byte strings.  The tree is a tree of elements (tag,
    attributes, text, tail, children).  An lxml tree can also hold
    comments and processing instructions: [iterchildren] yields them,
    and the walk behind [_textiter] does not report them.  Such nodes are
    outside the model, and so are the parser ([root_node]) and the
    [isinstance] test by which [get_items] chooses between a parsed tree
    and raw input: the engine is modelled from [_find_items] down. *)

From Stdlib Require Import String Ascii List Bool Arith Lia Permutation.
Import ListNotations.
Open Scope string_scope.
Open Scope list_scope.

Set Implicit Arguments.
Local Set Warnings "-register-all".

(** ** Python exceptions and the result of a call *)

Module Py.

Inductive exn : Type :=
| ValueError (msg : string)
| AttributeError
| TypeError.

(** A call returns, raises, or (for the fuelled recursion below) runs
    out of fuel. *)
Inductive result (A : Type) : Type :=
| Ok (a : A)
| Raise (x : exn)
| OutOfFuel.

Arguments Ok {A} a.
Arguments Raise {A} x.
Arguments OutOfFuel {A}.

Definition bind {A B : Type} (m : result A) (k : A -> result B) : result B :=
  match m with
  | Ok a => k a
  | Raise x => Raise x
  | OutOfFuel => OutOfFuel
  end.

(** [for x in xs: acc.extend(f(x))] *)
Fixpoint extend_each {A B : Type} (f : A -> result (list B))
         (xs : list A) (acc : list B) : result (list B) :=
  match xs with
  | [] => Ok acc
  | x :: xs' => bind (f x) (fun r => extend_each f xs' (acc ++ r))
  end.

(** Truthiness of an optional string: [None] and [''] are false. *)
Definition truthy (o : option string) : bool :=
  match o with
  | Some s => negb (s =? "")
  | None => false
  end.

(** [s.split(sep)] for a one-character separator: every occurrence of
    the separator ends a piece, so [k] separators give [k+1] pieces and
    adjacent separators give empty pieces. *)
Fixpoint split_on (sep : ascii) (s : string) : list string :=
  match s with
  | EmptyString => [""]
  | String c s' =>
      if Ascii.eqb c sep then "" :: split_on sep s'
      else match split_on sep s' with
           | piece :: rest => String c piece :: rest
           | [] => [String c ""]
           end
  end.

Definition split (s : string) : list string := split_on " "%char s.

(** [sep.join(pieces)] *)
Fixpoint join (sep : string) (pieces : list string) : string :=
  match pieces with
  | [] => ""
  | [p] => p
  | p :: rest => p ++ sep ++ join sep rest
  end.

Fixpoint contains_char (c : ascii) (s : string) : bool :=
  match s with
  | EmptyString => false
  | String d s' => Ascii.eqb d c || contains_char c s'
  end.

End Py.

Import Py.

Notation "x <- m ;; k" := (Py.bind m (fun x => k))
  (at level 61, m at next level, right associativity).
Notation "' pat <- m ;; k" := (Py.bind m (fun x => match x with pat => k end))
  (at level 61, pat pattern, m at next level, right associativity).

(** ** The document tree (lxml elements) *)

Inductive node : Type :=
| Element (tag : string) (attrib : list (string * string))
          (text tail : option string) (children : list node).

Definition tag (e : node) : string :=
  match e with Element t _ _ _ _ => t end.
Definition attrib (e : node) : list (string * string) :=
  match e with Element _ a _ _ _ => a end.
Definition text (e : node) : option string :=
  match e with Element _ _ t _ _ => t end.
Definition tail (e : node) : option string :=
  match e with Element _ _ _ t _ => t end.
Definition iterchildren (e : node) : list node :=
  match e with Element _ _ _ _ cs => cs end.

(** [d.get(key, None)] on a dictionary kept as an association list. *)
Fixpoint dict_get {V : Type} (d : list (string * V)) (key : string) : option V :=
  match d with
  | [] => None
  | (k, v) :: d' => if k =? key then Some v else dict_get d' key
  end.

(** [_attr(e, name)] is [e.get(name, None)]. *)
Definition _attr (e : node) (name : string) : option string :=
  dict_get (attrib e) name.

(** [_is_itemscope(e)] is [_attr(e, "itemscope") is not None]. *)
Definition _is_itemscope (e : node) : bool :=
  match _attr e "itemscope" with Some _ => true | None => false end.

(** ** The [URI] and [Item] classes *)

(** [URI(string)] keeps whatever it was given, a [str] or [None]. *)
Record URI : Type := mkURI { uri_string : option string }.

(** A property value is what [_property_value] returns or a nested Item. *)
Inductive value : Type :=
| VNone
| VStr (s : string)
| VURI (u : URI)
| VItem (i : Item)
with Item : Type :=
| mkItem (itemtype : option (list URI)) (itemid : option URI)
         (props : list (string * list value)).

Definition itemtype (i : Item) : option (list URI) :=
  match i with mkItem t _ _ => t end.
Definition itemid (i : Item) : option URI :=
  match i with mkItem _ d _ => d end.
Definition props (i : Item) : list (string * list value) :=
  match i with mkItem _ _ p => p end.

Module ItemM.

(** [Item.__init__]: the attributes [itemtype] and [itemid] are set only
    when the argument is truthy; [props] starts as the empty dict. *)
Definition __init__ (itemtype itemid : option string) : Item :=
  mkItem
    (if truthy itemtype
     then option_map (fun s => map (fun i => mkURI (Some i)) (split s)) itemtype
     else None)
    (if truthy itemid then Some (mkURI itemid) else None)
    [].

(** [d[name].append(value)] when [name in d], else [d[name] = [value]];
    the dict keeps the position of an existing key and adds a new key
    at the end. *)
Fixpoint dict_append {V : Type} (d : list (string * list V))
         (name : string) (v : V) : list (string * list V) :=
  match d with
  | [] => [(name, [v])]
  | (k, vs) :: d' =>
      if k =? name then (k, vs ++ [v]) :: d'
      else (k, vs) :: dict_append d' name v
  end.

(** [Item.set] *)
Definition set (self : Item) (name : string) (v : value) : Item :=
  mkItem (itemtype self) (itemid self) (dict_append (props self) name v).

(** [Item.get_all] *)
Definition get_all (self : Item) (name : string) : list value :=
  match dict_get (props self) name with
  | Some vs => vs
  | None => []
  end.

(** [Item.get] *)
Definition get (self : Item) (name : string) : value :=
  match get_all self name with
  | v :: _ => v
  | [] => VNone
  end.

End ItemM.

Import ItemM.

(** ** Text of an element: [_textiter] and [_text] *)

Inductive event : Type := ev_start | ev_end.

(** An element of the walk is identified by its path from the walked
    node (child indices); [[]] is the walked node itself. *)
Definition path : Type := list nat.

(** [etree.iterwalk(node, events=('start', 'end'))] on a tree of
    elements: a start event when an element is entered, its children in
    order, an end event when it is left. *)
Section Walk.
Variable walk : path -> node -> list (event * path * node).

(** The children of the element at path [p], from child index [i] on. *)
Fixpoint walk_children (p : path) (i : nat) (cs : list node)
  : list (event * path * node) :=
  match cs with
  | [] => []
  | c :: cs' => walk (p ++ [i]) c ++ walk_children p (S i) cs'
  end.
End Walk.

Fixpoint iterwalk_from (p : path) (e : node) {struct e}
  : list (event * path * node) :=
  match e with
  | Element _ _ _ _ cs =>
      (ev_start, p, e) :: walk_children iterwalk_from p 0 cs ++ [(ev_end, p, e)]
  end.

Definition iterwalk (e : node) : list (event * path * node) :=
  iterwalk_from [] e.

(** [element is node] *)
Definition is_walked_node (p : path) : bool :=
  match p with [] => true | _ => false end.

Definition yield_opt (o : option string) : list string :=
  match o with Some s => [s] | None => [] end.

(** One round of the inner loop of [_textiter]: what an event makes the
    generator yield.  An event whose element fails the predicate is
    skipped, whether it is a start or an end event. *)
Definition textiter_step (predicate : option (node -> bool))
           (x : event * path * node) : list string :=
  let '(ev, p, element) := x in
  if match predicate with
     | Some pr => negb (pr element)
     | None => false
     end
  then []
  else match ev with
       | ev_start => yield_opt (text element)
       | ev_end => if negb (is_walked_node p)
                   then yield_opt (tail element)
                   else []
       end.

(** [_textiter]: the strings the generator yields, in order. *)
Definition _textiter (e : node) (predicate : option (node -> bool)) : list string :=
  flat_map (textiter_step predicate) (iterwalk e).

Definition not_script (el : node) : bool := negb (tag el =? "script").

Definition _text (e : node) : string :=
  join "" (_textiter e (Some not_script)).

(** The joined text yielded for a run of events under the predicate of
    [_text]. *)
Definition yielded (evs : list (event * path * node)) : string :=
  join "" (flat_map (textiter_step (Some not_script)) evs).

(** ** The property-value rule *)

Definition property_values : list (string * string) :=
  [ ("meta", "content");
    ("audio", "src"); ("embed", "src"); ("iframe", "src");
    ("img", "src"); ("source", "src"); ("video", "src");
    ("a", "href"); ("area", "href"); ("link", "href");
    ("object", "data");
    ("time", "datetime") ].

Definition value_of_opt (o : option string) : value :=
  match o with Some s => VStr s | None => VNone end.

(** [e.get("content") or _text(e)] *)
Definition content_or_text (e : node) : value :=
  if truthy (_attr e "content")
  then value_of_opt (_attr e "content")
  else VStr (_text e).

Definition _property_value (e : node) : value :=
  match dict_get property_values (tag e) with
  | Some attrib =>
      if (attrib =? "href") || (attrib =? "src")
      then VURI (mkURI (_attr e attrib))
      else if truthy (Some attrib)
           then value_of_opt (_attr e attrib)
           else content_or_text e
  | None => content_or_text e
  end.

(** ** [_make_item], [_extract], [_find_items] *)

(** [etree.iselement(e)]: every node of the model is an element. *)
Definition _is_element (e : node) : bool := true.

Definition _make_item (e : node) : result Item :=
  if negb (_is_itemscope e)
  then Raise (ValueError "element is not an Item")
  else Ok (__init__ (_attr e "itemtype") (_attr e "itemid")).

(** The string of a truthy attribute value, [None] for a falsy one. *)
Definition if_truthy (o : option string) : option string :=
  if truthy o then o else None.

(** [for i in itemprop.split(" "): item.set(i, value)] *)
Definition set_each (item : Item) (names : list string) (v : value) : Item :=
  fold_left (fun it i => set it i v) names item.

(** [_extract(e, item)]: [item] is mutated in place by the Python code and
    is threaded through here; the result is the item after the call and
    the list [unlinked].  A nested item is stored in its parent only
    after its own extraction has returned and is never touched again, so
    storing its final value is storing the reference. *)
Section ExtractLoop.
Variable extract : node -> Item -> result (Item * list node).

(** The body of [for child in e.iterchildren()]. *)
Fixpoint for_child (cs : list node) (item : Item) (unlinked : list node)
  : result (Item * list node) :=
  match cs with
  | [] => Ok (item, unlinked)
  | child :: rest =>
      match if_truthy (_attr child "itemprop"), _is_itemscope child with
      | Some itemprop, true =>
          nested_item <- _make_item child ;;
          '(nested_item, u) <- extract child nested_item ;;
          for_child rest (set item itemprop (VItem nested_item)) (unlinked ++ u)
      | Some itemprop, false =>
          let v := _property_value child in
          let item := set_each item (split itemprop) v in
          '(item, u) <- extract child item ;;
          for_child rest item (unlinked ++ u)
      | None, true =>
          for_child rest item (unlinked ++ [child])
      | None, false =>
          '(item, u) <- extract child item ;;
          for_child rest item (unlinked ++ u)
      end
  end.
End ExtractLoop.

Fixpoint _extract (e : node) (item : Item) {struct e} : result (Item * list node) :=
  match e with
  | Element _ _ _ _ cs => for_child _extract cs item []
  end.

(** [_find_items] recurses on the elements [_extract] hands back, which
    are descendants of [e]; the recursion is written with fuel, and
    [_find_items] supplies the height of the tree. *)
Fixpoint _find_items_fuel (fuel : nat) (e : node) : result (list Item) :=
  match fuel with
  | 0 => OutOfFuel
  | S fuel' =>
      if _is_element e && _is_itemscope e then
        item <- _make_item e ;;
        '(item, unlinked) <- _extract e item ;;
        extend_each (_find_items_fuel fuel') unlinked [item]
      else
        extend_each (_find_items_fuel fuel') (iterchildren e) []
  end.

Fixpoint height (e : node) : nat :=
  match e with
  | Element _ _ _ _ cs => S (fold_right (fun c h => Nat.max (height c) h) 0 cs)
  end.

Definition _find_items (e : node) : result (list Item) :=
  _find_items_fuel (height e) e.


(** ** The serializer: [Item.json_dict] *)

(** The Python objects [json_dict] handles and builds. *)
Inductive pyval : Type :=
| PNone
| PStr (s : string)
| PURI (u : URI)
| PItem (i : Item)
| PList (l : list pyval)
| PDict (d : list (string * pyval)).

Definition pyval_of_opt (o : option string) : pyval :=
  match o with Some s => PStr s | None => PNone end.

Definition pyval_of_value (v : value) : pyval :=
  match v with
  | VNone => PNone
  | VStr s => PStr s
  | VURI u => PURI u
  | VItem i => PItem i
  end.

Module Attr.

(** [self.itemtype]: the instance attribute when [__init__] set it,
    otherwise [Item.__getattr__], which is [self.get("itemtype")]. *)
Definition item_itemtype (self : Item) : pyval :=
  match itemtype self with
  | Some l => PList (map PURI l)
  | None => pyval_of_value (get self "itemtype")
  end.

(** [self.itemid], in the same way. *)
Definition item_itemid (self : Item) : pyval :=
  match itemid self with
  | Some u => PURI u
  | None => pyval_of_value (get self "itemid")
  end.

(** [x.string]: the attribute of a [URI]; on an [Item] it goes through
    [__getattr__]; other objects have no such attribute. *)
Definition string_of (x : pyval) : result pyval :=
  match x with
  | PURI u => Ok (pyval_of_opt (uri_string u))
  | PItem i => Ok (pyval_of_value (get i "string"))
  | _ => Raise AttributeError
  end.

(** Truth value of an object in an [if]. *)
Definition is_true (x : pyval) : bool :=
  match x with
  | PNone => false
  | PStr s => negb (s =? "")
  | PURI _ => true
  | PItem _ => true
  | PList l => match l with [] => false | _ => true end
  | PDict d => match d with [] => false | _ => true end
  end.

Fixpoint chars (s : string) : list pyval :=
  match s with
  | EmptyString => []
  | String c s' => PStr (String c "") :: chars s'
  end.

(** [for i in x]: lists, strings and dicts iterate; [URI] and [Item]
    objects do not. *)
Definition iter (x : pyval) : result (list pyval) :=
  match x with
  | PList l => Ok l
  | PStr s => Ok (chars s)
  | PDict d => Ok (map (fun kv => PStr (fst kv)) d)
  | _ => Raise TypeError
  end.

(** [[f(i) for i in xs]] *)
Fixpoint comprehension (f : pyval -> result pyval) (xs : list pyval)
  : result (list pyval) :=
  match xs with
  | [] => Ok []
  | x :: xs' => y <- f x ;; ys <- comprehension f xs' ;; Ok (y :: ys)
  end.

End Attr.

(** [Item.json_dict]: the dict [item], with its keys in insertion order. *)
Fixpoint json_dict (self : Item) : result (list (string * pyval)) :=
  match self with
  | mkItem _ _ ps =>
      item <- (if Attr.is_true (Attr.item_itemtype self)
               then xs <- Attr.iter (Attr.item_itemtype self) ;;
                    ss <- Attr.comprehension Attr.string_of xs ;;
                    Ok [("type", PList ss)]
               else Ok []) ;;
      item <- (if Attr.is_true (Attr.item_itemid self)
               then s <- Attr.string_of (Attr.item_itemid self) ;;
                    Ok (item ++ [("id", s)])
               else Ok item) ;;
      properties <-
        (fix for_name (ps : list (string * list value))
             (acc : list (string * list pyval)) {struct ps} :=
           match ps with
           | [] => Ok acc
           | (name, values) :: ps' =>
               acc <- (fix for_v (vs : list value)
                            (acc : list (string * list pyval)) {struct vs} :=
                         match vs with
                         | [] => Ok acc
                         | v :: vs' =>
                             x <- match v with
                                  | VItem i => d <- json_dict i ;; Ok (PDict d)
                                  | VURI u => Ok (pyval_of_opt (uri_string u))
                                  | VStr s => Ok (PStr s)
                                  | VNone => Ok PNone
                                  end ;;
                             for_v vs' (dict_append acc name x)
                         end) values acc ;;
               for_name ps' acc
           end) ps [] ;;
      Ok (item ++ [("properties",
                    PDict (map (fun kv => (fst kv, PList (snd kv))) properties))])
  end.

(** * Declarative readings of the engine

    These definitions describe, by one structural pass over the tree, what
    the recursive functions above compute; the theorems below prove the
    agreement. *)

(** How [_extract] classifies a child. *)
Inductive child_kind : Type :=
| NestedItem (itemprop : string)   (* itemprop and itemscope *)
| Property (itemprop : string)     (* itemprop only *)
| Unlinked                         (* itemscope only *)
| Transparent.                     (* neither *)

Definition classify (child : node) : child_kind :=
  match if_truthy (_attr child "itemprop"), _is_itemscope child with
  | Some p, true => NestedItem p
  | Some p, false => Property p
  | None, true => Unlinked
  | None, false => Transparent
  end.

Definition assign_all (item : Item) (kvs : list (string * value)) : Item :=
  fold_left (fun it kv => set it (fst kv) (snd kv)) kvs item.

(** The (name, value) assignments made, in order, on the item whose
    scope the children of [e] lie in. *)
Fixpoint scope_props (e : node) : list (string * value) :=
  match e with
  | Element _ _ _ _ cs =>
      flat_map
        (fun child =>
           match classify child with
           | NestedItem p =>
               [(p, VItem (assign_all
                             (__init__ (_attr child "itemtype") (_attr child "itemid"))
                             (scope_props child)))]
           | Property p =>
               map (fun n => (n, _property_value child)) (split p)
                 ++ scope_props child
           | Unlinked => []
           | Transparent => scope_props child
           end) cs
  end.

(** The Item built for an itemscope element. *)
Definition item_of (e : node) : Item :=
  assign_all (__init__ (_attr e "itemtype") (_attr e "itemid")) (scope_props e).

(** The elements [_extract] returns as unlinked, in document order. *)
Fixpoint unlinked_of (e : node) : list node :=
  match e with
  | Element _ _ _ _ cs =>
      flat_map
        (fun child =>
           match classify child with
           | Unlinked => [child]
           | _ => unlinked_of child
           end) cs
  end.

(** What one child contributes to the two lists above. *)
Definition child_props (child : node) : list (string * value) :=
  match classify child with
  | NestedItem p => [(p, VItem (item_of child))]
  | Property p =>
      map (fun n => (n, _property_value child)) (split p) ++ scope_props child
  | Unlinked => []
  | Transparent => scope_props child
  end.

Definition child_unlinked (child : node) : list node :=
  match classify child with
  | Unlinked => [child]
  | _ => unlinked_of child
  end.

(** The elements that become entries of the flat result list, in document
    order (pre-order).  [inside] tells whether some ancestor carries
    itemscope.  An itemscope element is an entry when it has no itemscope
    ancestor or when its itemprop is missing or empty. *)
Fixpoint top_roots (inside : bool) (e : node) : list node :=
  match e with
  | Element _ _ _ _ cs =>
      (if _is_itemscope e
          && (negb inside || negb (truthy (_attr e "itemprop")))
       then [e] else [])
        ++ flat_map (top_roots (inside || _is_itemscope e)) cs
  end.

(** [c] lies in the scope of [e]: it is reached from [e] through elements
    that carry no itemscope. *)
Inductive in_scope (e : node) : node -> Prop :=
| scope_child c : In c (iterchildren e) -> in_scope e c
| scope_deeper x c :
    in_scope e x -> _is_itemscope x = false -> In c (iterchildren x) ->
    in_scope e c.

Fixpoint no_itemscope (e : node) : bool :=
  match e with
  | Element _ _ _ _ cs => negb (_is_itemscope e) && forallb no_itemscope cs
  end.

(** The invariant of the property mapping, for an Item and the Items
    nested in it: no name is stored with an empty list of values. *)
Fixpoint props_ok (i : Item) : bool :=
  match i with
  | mkItem _ _ ps =>
      forallb
        (fun kv =>
           match snd kv with [] => false | _ => true end
           && forallb (fun v => match v with VItem j => props_ok j | _ => true end)
                      (snd kv))
        ps
  end.

(** The same for one Item alone, as a proposition. *)
Definition names_nonempty (i : Item) : Prop :=
  forall name vs, In (name, vs) (props i) -> vs <> [].

Definition value_ok (v : value) : bool :=
  match v with VItem j => props_ok j | _ => true end.

(** What the rule computes when the mapped attribute is missing on the
    element: [URI(None)] for href and src, [None] otherwise. *)
Definition missing_value (attrib : string) : value :=
  if (attrib =? "href") || (attrib =? "src")
  then VURI (mkURI None)
  else VNone.

(** ** Readings of the text of an element *)

Definition str_of_opt (o : option string) : string :=
  match o with Some s => s | None => "" end.

(** What the iterator yields for the subtree of [e], by structural
    recursion: the text of [e] unless [e] is a script element, then for
    each child its own contribution followed by its tail unless the child
    is a script element. *)
Fixpoint inner_text (e : node) : string :=
  match e with
  | Element _ _ x _ cs =>
      ((if not_script e then str_of_opt x else "")
         ++ fold_right
              (fun c acc =>
                 inner_text c
                   ++ (if not_script c then str_of_opt (tail c) else "")
                   ++ acc)
              "" cs)%string
  end.

Definition children_text (cs : list node) : string :=
  fold_right
    (fun c acc =>
       inner_text c ++ (if not_script c then str_of_opt (tail c) else "") ++ acc)%string
    "" cs.

(** The text as the specification words it: all text of the element and
    of its descendants in document order, nothing from inside a script
    descendant, and the tail of every descendant, script or not. *)
Fixpoint spec_text (e : node) : string :=
  match e with
  | Element _ _ x _ cs =>
      (str_of_opt x
         ++ fold_right
              (fun c acc =>
                 (if tag c =? "script" then "" else spec_text c)
                   ++ str_of_opt (tail c)
                   ++ acc)
              "" cs)%string
  end.

(** ** Splitting on whitespace, as the specification words it *)

Definition is_whitespace (c : ascii) : bool :=
  match nat_of_ascii c with
  | 9 | 10 | 11 | 12 | 13 | 32 => true
  | _ => false
  end.

(** Runs of whitespace separate the pieces and no piece is empty
    (Python's [s.split()]); [cur] is the piece being read. *)
Fixpoint spec_split_whitespace_from (cur : string) (s : string) : list string :=
  match s with
  | EmptyString => if cur =? "" then [] else [cur]
  | String c s' =>
      if is_whitespace c
      then (if cur =? "" then [] else [cur]) ++ spec_split_whitespace_from "" s'
      else spec_split_whitespace_from (cur ++ String c "")%string s'
  end.

Definition spec_split_whitespace (s : string) : list string :=
  spec_split_whitespace_from "" s.

(** ** Sample documents *)

Module Sample.

Definition tab : string := String (ascii_of_nat 9) "".

(** [<div itemscope><div itemprop="author" itemscope itemtype="Person">
     <span itemprop="name">Jo</span></div></div>] *)
Definition name_span : node :=
  Element "span" [("itemprop", "name")] (Some "Jo") None [].
Definition author_div : node :=
  Element "div"
          [("itemprop", "author"); ("itemscope", ""); ("itemtype", "Person")]
          None None [name_span].
Definition nested_doc : node :=
  Element "div" [("itemscope", "")] None None [author_div].

Definition person_item : Item :=
  mkItem (Some [mkURI (Some "Person")]) None [("name", [VStr "Jo"])].
Definition outer_item : Item :=
  mkItem None None [("author", [VItem person_item])].


(** [<p>a<script>s</script>b</p>] *)
Definition script_doc : node :=
  Element "p" [] (Some "a") None
          [Element "script" [] (Some "s") (Some "b") []].

(** [<div itemscope><div itemprop="a b" itemscope></div></div>] *)
Definition fanout_scoped_doc : node :=
  Element "div" [("itemscope", "")] None None
          [Element "div" [("itemprop", "a b"); ("itemscope", "")] None None []].

(** [<div itemscope><span itemprop="a b">X</span></div>] *)
Definition fanout_doc : node :=
  Element "div" [("itemscope", "")] None None
          [Element "span" [("itemprop", "a b")] (Some "X") None []].

(** [<div itemscope itemtype="T1 T2"></div>] and the same with a tab
    between the two types. *)
Definition two_types : node :=
  Element "div" [("itemscope", ""); ("itemtype", "T1 T2")] None None [].
Definition two_types_tab : node :=
  Element "div" [("itemscope", ""); ("itemtype", ("T1" ++ tab ++ "T2")%string)]
          None None [].

(** [<img itemprop="photo">] and [<meta itemprop="m">], the mapped
    attribute missing, inside [<div itemscope>]. *)
Definition img_no_src : node :=
  Element "img" [("itemprop", "photo")] None None [].
Definition meta_no_content : node :=
  Element "meta" [("itemprop", "m")] None None [].
Definition missing_attr_doc : node :=
  Element "div" [("itemscope", "")] None None [img_no_src; meta_no_content].

(** [<span itemprop="x" content="">hi</span>] and
    [<span itemprop="x" content="c">hi</span>] *)
Definition empty_content : node :=
  Element "span" [("itemprop", "x"); ("content", "")] (Some "hi") None [].
Definition with_content : node :=
  Element "span" [("itemprop", "x"); ("content", "c")] (Some "hi") None [].

(** [<div itemscope itemid=""><a itemprop="itemid" href="u"></a></div>] *)
Definition empty_id_doc : node :=
  Element "div" [("itemscope", ""); ("itemid", "")] None None
          [Element "a" [("itemprop", "itemid"); ("href", "u")] None None []].

(** [<div itemscope itemtype=""><span itemprop="itemtype">x</span></div>] *)
Definition empty_type_doc : node :=
  Element "div" [("itemscope", ""); ("itemtype", "")] None None
          [Element "span" [("itemprop", "itemtype")] (Some "x") None []].

(** [<div><p>no microdata</p></div>] *)
Definition no_items_doc : node :=
  Element "div" [] None None
          [Element "p" [("class", "c")] (Some "no microdata") None []].

End Sample.

(** Induction over the tree, with the hypothesis for every child. *)
Section NodeInduction.
Variable P : node -> Prop.
Hypothesis step :
  forall t a x y cs, Forall P cs -> P (Element t a x y cs).

Fixpoint node_induction (e : node) : P e :=
  match e with
  | Element t a x y cs =>
      step t a x y
           ((fix all (l : list node) : Forall P l :=
               match l with
               | [] => Forall_nil P
               | c :: l' => Forall_cons c (node_induction c) (all l')
               end) cs)
  end.
End NodeInduction.

(** * Further readings, for the properties of the whole module *)




(** The property names of an Item, in the order of the mapping. *)
Definition names (i : Item) : list string := map fst (props i).

(** [name in self.props] *)
Definition has_name (i : Item) (name : string) : bool :=
  existsb (String.eqb name) (names i).

(** The values [kvs] assigns to [name], in order. *)
Definition values_named (name : string) (kvs : list (string * value)) : list value :=
  map snd (filter (fun kv => fst kv =? name) kvs).

(** [n] is a proper descendant of [e]. *)
Inductive descendant (e : node) : node -> Prop :=
| desc_child c : In c (iterchildren e) -> descendant e c
| desc_deeper x c : descendant e x -> In c (iterchildren x) -> descendant e c.

(** The elements of the subtree of [e] that carry itemscope, in document
    order. *)
Fixpoint scoped_elements (e : node) : list node :=
  match e with
  | Element _ _ _ _ cs =>
      (if _is_itemscope e then [e] else []) ++ flat_map scoped_elements cs
  end.

(** The Items in [i]: [i] itself, then the Items nested in its property
    values, at any depth. *)
Fixpoint all_items (i : Item) : list Item :=
  match i with
  | mkItem _ _ ps =>
      i :: flat_map
             (fun kv =>
                flat_map (fun v => match v with
                                   | VItem j => all_items j
                                   | _ => []
                                   end) (snd kv))
             ps
  end.

Definition value_items (v : value) : list Item :=
  match v with VItem j => all_items j | _ => [] end.

Definition props_items (ps : list (string * list value)) : list Item :=
  flat_map (fun kv => flat_map value_items (snd kv)) ps.

Definition assigned_items (kvs : list (string * value)) : list Item :=
  flat_map (fun kv => value_items (snd kv)) kvs.

(** The Items of the elements [rs], each with the Items nested in it. *)
Definition roots_items (rs : list node) : list Item :=
  flat_map (fun r => all_items (item_of r)) rs.

(** The types and the id an Item can have after [__init__]: the list of
    types is not empty and no type holds a space; the id is not empty. *)
Definition type_ok (u : URI) : bool :=
  match uri_string u with
  | Some s => negb (contains_char " " s)
  | None => false
  end.

Definition types_ok (t : option (list URI)) : bool :=
  match t with
  | None => true
  | Some l => match l with [] => false | _ => forallb type_ok l end
  end.

Definition id_ok (d : option URI) : bool :=
  match d with
  | None => true
  | Some u => truthy (uri_string u)
  end.

Fixpoint attrs_ok (i : Item) : bool :=
  match i with
  | mkItem t d ps =>
      types_ok t && id_ok d
      && forallb
           (fun kv =>
              forallb (fun v => match v with VItem j => attrs_ok j | _ => true end)
                      (snd kv))
           ps
  end.

Definition value_attrs_ok (v : value) : bool :=
  match v with VItem j => attrs_ok j | _ => true end.

(** [predicate(element)] when a predicate is given; without one every
    element passes. *)
Definition passes (predicate : option (node -> bool)) (el : node) : bool :=
  match predicate with
  | Some pr => pr el
  | None => true
  end.

(** The text of the elements of the subtree of [e] that satisfy [pr] and
    the tails of the proper descendants that satisfy [pr], in document
    order. *)
Fixpoint filtered_text (pr : node -> bool) (e : node) : string :=
  match e with
  | Element _ _ x _ cs =>
      ((if pr e then str_of_opt x else "")
         ++ fold_right
              (fun c acc =>
                 filtered_text pr c
                   ++ (if pr c then str_of_opt (tail c) else "")
                   ++ acc)
              "" cs)%string
  end.

Definition filtered_children (pr : node -> bool) (cs : list node) : string :=
  fold_right
    (fun c acc =>
       filtered_text pr c ++ (if pr c then str_of_opt (tail c) else "") ++ acc)%string
    "" cs.

(** ** The loops of [json_dict], by name *)

Section JsonLoops.
Variable rec : Item -> result (list (string * pyval)).

(** What one value becomes in the record. *)
Definition json_value (v : value) : result pyval :=
  match v with
  | VItem i => d <- rec i ;; Ok (PDict d)
  | VURI u => Ok (pyval_of_opt (uri_string u))
  | VStr s => Ok (PStr s)
  | VNone => Ok PNone
  end.

Section JsonValues.
Variable name : string.

(** [for v in values: props[name].append(...)] *)
Fixpoint json_values (vs : list value) (acc : list (string * list pyval))
  : result (list (string * list pyval)) :=
  match vs with
  | [] => Ok acc
  | v :: vs' => x <- json_value v ;; json_values vs' (dict_append acc name x)
  end.
End JsonValues.

(** [for name, values in self.props.items(): ...] *)
Fixpoint json_names (ps : list (string * list value))
         (acc : list (string * list pyval)) : result (list (string * list pyval)) :=
  match ps with
  | [] => Ok acc
  | (name, values) :: ps' =>
      acc <- json_values name values acc ;; json_names ps' acc
  end.
End JsonLoops.

(** The record of an Item read off its fields: "type" when the Item has
    a non-empty list of types, "id" when it has an id, and "properties"
    with every name in order and every value rendered in order (URIs by
    their string, nested Items by their records). *)
Fixpoint to_record (i : Item) : list (string * pyval) :=
  match i with
  | mkItem t d ps =>
      match t with
      | Some (u :: l) =>
          [("type", PList (map (fun u => pyval_of_opt (uri_string u)) (u :: l)))]
      | _ => []
      end
        ++ match d with
           | Some u => [("id", pyval_of_opt (uri_string u))]
           | None => []
           end
        ++ [("properties",
             PDict (map (fun kv =>
                           (fst kv,
                            PList (map (fun v =>
                                          match v with
                                          | VItem j => PDict (to_record j)
                                          | VURI u => pyval_of_opt (uri_string u)
                                          | VStr s => PStr s
                                          | VNone => PNone
                                          end) (snd kv))))
                        ps))]
  end.

Definition render (v : value) : pyval :=
  match v with
  | VItem j => PDict (to_record j)
  | VURI u => pyval_of_opt (uri_string u)
  | VStr s => PStr s
  | VNone => PNone
  end.

(** No string occurs twice in the list. *)
Fixpoint nodupb (l : list string) : bool :=
  match l with
  | [] => true
  | x :: l' => negb (existsb (String.eqb x) l') && nodupb l'
  end.

(** Each property name occurs once in the mapping, in the Item and in
    the Items nested in it (what a Python dict gives by itself). *)
Fixpoint names_unique (i : Item) : bool :=
  match i with
  | mkItem _ _ ps =>
      nodupb (map fst ps)
      && forallb
           (fun kv =>
              forallb (fun v => match v with VItem j => names_unique j | _ => true end)
                      (snd kv))
           ps
  end.

(** No property is named like an attribute that [__init__] left unset,
    in the Item and in the Items nested in it. *)
Fixpoint no_shadow (i : Item) : bool :=
  match i with
  | mkItem t d ps =>
      (match t with
       | Some _ => true
       | None => negb (existsb (String.eqb "itemtype") (map fst ps))
       end)
      && (match d with
          | Some _ => true
          | None => negb (existsb (String.eqb "itemid") (map fst ps))
          end)
      && forallb
           (fun kv =>
              forallb (fun v => match v with VItem j => no_shadow j | _ => true end)
                      (snd kv))
           ps
  end.

(** Induction over an Item, with the hypothesis for every nested Item. *)
Section ItemInduction.
Variable P : Item -> Prop.

Definition P_value (v : value) : Prop :=
  match v with VItem j => P j | _ => True end.

Hypothesis step :
  forall t d ps,
    Forall (fun kv => Forall P_value (snd kv)) ps -> P (mkItem t d ps).

Fixpoint Item_induction (i : Item) : P i :=
  match i with
  | mkItem t d ps =>
      step t d
           ((fix all_kv (l : list (string * list value))
               : Forall (fun kv => Forall P_value (snd kv)) l :=
               match l with
               | [] => Forall_nil _
               | kv :: l' =>
                   Forall_cons kv
                     ((fix all_v (vs : list value) : Forall P_value vs :=
                         match vs with
                         | [] => Forall_nil _
                         | v :: vs' =>
                             Forall_cons v
                               (match v return P_value v with
                                | VItem j => Item_induction j
                                | _ => I
                                end)
                               (all_v vs')
                         end) (snd kv))
                     (all_kv l')
               end) ps)
  end.
End ItemInduction.

Definition value_names_unique (v : value) : bool :=
  match v with VItem j => names_unique j | _ => true end.

Definition value_no_shadow (v : value) : bool :=
  match v with VItem j => no_shadow j | _ => true end.

(** A name that does not collide with the attributes [json_dict] reads. *)
Definition plain_name (n : string) : bool :=
  negb (n =? "itemtype") && negb (n =? "itemid").

(** No element of the subtree has an itemprop that is, or lists,
    "itemtype" or "itemid". *)
Fixpoint plain_names (e : node) : bool :=
  match e with
  | Element _ _ _ _ cs =>
      match if_truthy (_attr e "itemprop") with
      | Some p => plain_name p && forallb plain_name (split p)
      | None => true
      end
      && forallb plain_names cs
  end.
(** * Basic facts *)

Lemma classify_cases (c : node) :
  match classify c with
  | NestedItem p =>
      if_truthy (_attr c "itemprop") = Some p /\ _is_itemscope c = true
  | Property p =>
      if_truthy (_attr c "itemprop") = Some p /\ _is_itemscope c = false
  | Unlinked =>
      if_truthy (_attr c "itemprop") = None /\ _is_itemscope c = true
  | Transparent =>
      if_truthy (_attr c "itemprop") = None /\ _is_itemscope c = false
  end.
Proof.
  unfold classify.
  destruct (if_truthy (_attr c "itemprop")), (_is_itemscope c); auto.
Qed.

Lemma if_truthy_truthy (o : option string) :
  truthy o = match if_truthy o with Some _ => true | None => false end.
Proof.
  unfold if_truthy. destruct (truthy o) eqn:E; [|reflexivity].
  destruct o; [reflexivity | discriminate].
Qed.

Lemma make_item_scoped (e : node) :
  _is_itemscope e = true ->
  _make_item e = Ok (__init__ (_attr e "itemtype") (_attr e "itemid")).
Proof. intros H. unfold _make_item. now rewrite H. Qed.

Lemma set_each_assign (item : Item) (names : list string) (v : value) :
  set_each item names v = assign_all item (map (fun n => (n, v)) names).
Proof.
  unfold set_each, assign_all. revert item.
  induction names as [|n names IH]; intros item; simpl; [reflexivity|].
  apply IH.
Qed.

Lemma assign_all_app (item : Item) (k1 k2 : list (string * value)) :
  assign_all item (k1 ++ k2) = assign_all (assign_all item k1) k2.
Proof. apply fold_left_app. Qed.

Lemma scope_props_children (e : node) :
  scope_props e = flat_map child_props (iterchildren e).
Proof. destruct e; reflexivity. Qed.

Lemma unlinked_of_children (e : node) :
  unlinked_of e = flat_map child_unlinked (iterchildren e).
Proof. destruct e; reflexivity. Qed.

Lemma extract_children (e : node) (item : Item) :
  _extract e item = for_child _extract (iterchildren e) item [].
Proof. destruct e; reflexivity. Qed.

(** * [_extract] against its declarative reading *)

Definition extract_spec (c : node) : Prop :=
  forall item,
    _extract c item = Ok (assign_all item (scope_props c), unlinked_of c).

Lemma for_child_spec (cs : list node) :
  Forall extract_spec cs ->
  forall item unlinked,
    for_child _extract cs item unlinked
    = Ok (assign_all item (flat_map child_props cs),
          unlinked ++ flat_map child_unlinked cs).
Proof.
  induction 1 as [|c cs Hc _ IH]; intros item unlinked; simpl.
  - now rewrite app_nil_r.
  - unfold child_props, child_unlinked, classify.
    pose proof (classify_cases c) as Hk. unfold classify in Hk.
    destruct (if_truthy (_attr c "itemprop")) as [p|],
             (_is_itemscope c) eqn:Hs; simpl.
    + rewrite (make_item_scoped c Hs). simpl. rewrite Hc. simpl.
      rewrite IH, <- app_assoc. reflexivity.
    + rewrite Hc. simpl. rewrite IH, set_each_assign, <- app_assoc.
      now rewrite !assign_all_app.
    + rewrite IH, <- app_assoc. reflexivity.
    + rewrite Hc. simpl. rewrite IH, <- app_assoc.
      now rewrite assign_all_app.
Qed.

Lemma extract_correct (e : node) : extract_spec e.
Proof.
  induction e as [t a x y cs IH] using node_induction.
  intros item. simpl.
  rewrite (for_child_spec IH).
  reflexivity.
Qed.

Lemma extract_item_of (e : node) :
  _is_itemscope e = true ->
  (item <- _make_item e ;; _extract e item) = Ok (item_of e, unlinked_of e).
Proof.
  intros H. rewrite (make_item_scoped e H). simpl. apply extract_correct.
Qed.

(** * [_find_items] against its declarative reading *)

Lemma extend_each_ok {A B : Type} (f : A -> result (list B)) (g : A -> list B)
      (xs : list A) :
  Forall (fun x => f x = Ok (g x)) xs ->
  forall acc, extend_each f xs acc = Ok (acc ++ flat_map g xs).
Proof.
  induction 1 as [|x xs Hx _ IH]; intros acc; simpl.
  - now rewrite app_nil_r.
  - rewrite Hx. simpl. rewrite IH, <- app_assoc. reflexivity.
Qed.

Lemma map_flat_map_comm {A B C : Type} (f : B -> C) (g : A -> list B)
      (l : list A) :
  flat_map (fun x => map f (g x)) l = map f (flat_map g l).
Proof.
  induction l as [|x l IH]; simpl; [reflexivity|].
  now rewrite map_app, IH.
Qed.

Lemma height_children (e : node) (n : nat) :
  height e <= S n -> Forall (fun c => height c <= n) (iterchildren e).
Proof.
  destruct e as [t a x y cs]. simpl. intros H. apply le_S_n in H.
  induction cs as [|c cs IH]; simpl in *; constructor.
  - lia.
  - apply IH. lia.
Qed.

Lemma height_pos (e : node) : 1 <= height e.
Proof. destruct e; simpl; lia. Qed.

Lemma top_roots_unfold (inside : bool) (e : node) :
  top_roots inside e
  = (if _is_itemscope e
        && (negb inside || negb (truthy (_attr e "itemprop")))
     then [e] else [])
      ++ flat_map (top_roots (inside || _is_itemscope e)) (iterchildren e).
Proof. destruct e; reflexivity. Qed.

Lemma top_roots_unlinked (u : node) :
  classify u = Unlinked -> top_roots false u = top_roots true u.
Proof.
  intros H. pose proof (classify_cases u) as Hk. rewrite H in Hk.
  destruct Hk as [Hp Hs].
  rewrite !top_roots_unfold, Hs, if_truthy_truthy, Hp. reflexivity.
Qed.

Lemma top_roots_child_unlinked (c : node) :
  flat_map (top_roots true) (unlinked_of c)
  = flat_map (top_roots true) (iterchildren c) ->
  flat_map (top_roots true) (child_unlinked c) = top_roots true c.
Proof.
  intros IH. unfold child_unlinked.
  pose proof (classify_cases c) as Hk.
  destruct (classify c); destruct Hk as [Hp Hs]; simpl;
    rewrite ?app_nil_r, (top_roots_unfold true c), if_truthy_truthy, Hp, Hs;
    simpl; auto.
Qed.

Lemma top_roots_unlinked_of (e : node) :
  flat_map (top_roots true) (unlinked_of e)
  = flat_map (top_roots true) (iterchildren e).
Proof.
  induction e as [t a x y cs IH] using node_induction.
  rewrite unlinked_of_children. simpl.
  induction IH as [|c cs Hc _ IHcs]; simpl; [reflexivity|].
  rewrite flat_map_app, IHcs.
  now rewrite (top_roots_child_unlinked c Hc).
Qed.

(** Every element handed back by [_extract] is an itemscope element with
    no usable itemprop, strictly below [e]. *)
Lemma unlinked_of_below (e : node) :
  Forall (fun u => classify u = Unlinked /\ height u < height e)
         (unlinked_of e).
Proof.
  induction e as [t a x y cs IH] using node_induction.
  rewrite unlinked_of_children.
  apply Forall_flat_map. rewrite Forall_forall. intros c Hin.
  assert (Hlt : height c < height (Element t a x y cs)).
  { pose proof (@height_children (Element t a x y cs) (height (Element t a x y cs) - 1)) as Hh.
    pose proof (height_pos (Element t a x y cs)).
    rewrite Forall_forall in Hh. specialize (Hh ltac:(lia) c Hin). lia. }
  rewrite Forall_forall in IH. specialize (IH c Hin).
  unfold child_unlinked. destruct (classify c) eqn:Hk.
  1,2,4: eapply Forall_impl; [|exact IH]; cbv beta; intros u [Hu Hh]; split;
    [exact Hu | lia].
  constructor; [split; [exact Hk | exact Hlt] | constructor].
Qed.

Lemma find_items_fuel_roots (fuel : nat) :
  forall e, height e <= fuel ->
    _find_items_fuel fuel e = Ok (map item_of (top_roots false e)).
Proof.
  induction fuel as [|fuel IH]; intros e Hh.
  - pose proof (height_pos e). lia.
  - simpl. unfold _is_element. simpl.
    rewrite top_roots_unfold.
    destruct (_is_itemscope e) eqn:Hs; simpl.
    + pose proof (extract_item_of e Hs) as He.
      destruct (_make_item e) as [item| |]; simpl in He; try discriminate.
      simpl. rewrite He. simpl.
      rewrite (@extend_each_ok _ _ _ (fun u => map item_of (top_roots true u))).
      * rewrite map_flat_map_comm, top_roots_unlinked_of. reflexivity.
      * eapply Forall_impl; [|apply unlinked_of_below].
        cbv beta. intros u [Hu Hlt].
        rewrite IH by lia. now rewrite (top_roots_unlinked u Hu).
    + rewrite (@extend_each_ok _ _ _ (fun c => map item_of (top_roots false c))).
      * now rewrite map_flat_map_comm.
      * eapply Forall_impl; [|apply (height_children e Hh)].
        cbv beta. intros c Hc. now apply IH.
Qed.

Lemma find_items_roots (e : node) :
  _find_items e = Ok (map item_of (top_roots false e)).
Proof. apply find_items_fuel_roots. apply le_n. Qed.

(** More fuel than the height changes nothing. *)
Lemma find_items_fuel_enough (fuel : nat) (e : node) :
  height e <= fuel -> _find_items_fuel fuel e = _find_items e.
Proof.
  intros H. now rewrite find_items_roots, find_items_fuel_roots.
Qed.


(** * The text iterator against its structural reading *)

Lemma str_app_nil_r (s : string) : (s ++ "")%string = s.
Proof. induction s as [|c s IH]; simpl; [reflexivity | now rewrite IH]. Qed.

Lemma str_app_assoc (a b c : string) :
  ((a ++ b) ++ c)%string = (a ++ (b ++ c))%string.
Proof. induction a as [|x a IH]; simpl; [reflexivity | now rewrite IH]. Qed.

Lemma join_cons (x : string) (l : list string) :
  join "" (x :: l) = (x ++ join "" l)%string.
Proof. destruct l; simpl; [now rewrite str_app_nil_r | reflexivity]. Qed.

Lemma join_app (l1 l2 : list string) :
  join "" (l1 ++ l2) = (join "" l1 ++ join "" l2)%string.
Proof.
  induction l1 as [|x l1 IH]; [reflexivity|].
  rewrite <- app_comm_cons, !join_cons, IH. now rewrite str_app_assoc.
Qed.

Lemma join_yield_opt (o : option string) :
  join "" (yield_opt o) = str_of_opt o.
Proof. destruct o; reflexivity. Qed.

Lemma inner_text_unfold (e : node) :
  inner_text e
  = ((if not_script e then str_of_opt (text e) else "")
       ++ children_text (iterchildren e))%string.
Proof. destruct e; reflexivity. Qed.

Lemma yielded_app (l1 l2 : list (event * path * node)) :
  yielded (l1 ++ l2) = (yielded l1 ++ yielded l2)%string.
Proof. unfold yielded. now rewrite flat_map_app, join_app. Qed.

Lemma yielded_start (p : path) (e : node) :
  yielded [(ev_start, p, e)]
  = if not_script e then str_of_opt (text e) else "".
Proof.
  unfold yielded. simpl. destruct (not_script e); simpl; [|reflexivity].
  now rewrite app_nil_r, join_yield_opt.
Qed.

Lemma yielded_end_below (p : path) (e : node) :
  p <> [] ->
  yielded [(ev_end, p, e)]
  = if not_script e then str_of_opt (tail e) else "".
Proof.
  intros Hp. unfold yielded. simpl.
  destruct (not_script e); simpl; [|reflexivity].
  destruct p; [contradiction|]. simpl.
  now rewrite app_nil_r, join_yield_opt.
Qed.

Lemma yielded_end_walked (e : node) : yielded [(ev_end, [], e)] = "".
Proof. unfold yielded. simpl. now destruct (not_script e). Qed.

Definition below_spec (c : node) : Prop :=
  forall p, p <> [] ->
    yielded (iterwalk_from p c)
    = (inner_text c ++ (if not_script c then str_of_opt (tail c) else ""))%string.

Lemma walk_children_text (cs : list node) :
  Forall below_spec cs ->
  forall p i, yielded (walk_children iterwalk_from p i cs) = children_text cs.
Proof.
  induction 1 as [|c cs Hc _ IH]; intros p i; simpl; [reflexivity|].
  rewrite yielded_app, IH, Hc, str_app_assoc; [reflexivity|].
  now destruct p.
Qed.

Lemma iterwalk_below (e : node) : below_spec e.
Proof.
  induction e as [t a x y cs IH] using node_induction.
  intros p Hp. simpl iterwalk_from.
  change ((ev_start, p, Element t a x y cs)
            :: walk_children iterwalk_from p 0 cs
            ++ [(ev_end, p, Element t a x y cs)])
    with ([(ev_start, p, Element t a x y cs)]
            ++ walk_children iterwalk_from p 0 cs
            ++ [(ev_end, p, Element t a x y cs)]).
  rewrite !yielded_app, yielded_start, (walk_children_text IH),
    (yielded_end_below _ Hp), inner_text_unfold.
  now rewrite str_app_assoc.
Qed.

Lemma text_inner_text (e : node) : _text e = inner_text e.
Proof.
  destruct e as [t a x y cs].
  change (_text (Element t a x y cs))
    with (yielded ([(ev_start, [], Element t a x y cs)]
                     ++ walk_children iterwalk_from [] 0 cs
                     ++ [(ev_end, [], Element t a x y cs)])).
  rewrite !yielded_app, yielded_start, yielded_end_walked, str_app_nil_r,
    inner_text_unfold.
  rewrite (@walk_children_text cs); [reflexivity|].
  apply Forall_forall. intros c _. apply iterwalk_below.
Qed.

(** * The property mapping *)

Lemma dict_get_append {V : Type} (d : list (string * list V))
      (k k' : string) (v : V) :
  dict_get (dict_append d k v) k'
  = if k =? k'
    then Some (match dict_get d k' with Some vs => vs ++ [v] | None => [v] end)
    else dict_get d k'.
Proof.
  induction d as [|[k0 vs] d IH]; simpl.
  - destruct (k =? k'); reflexivity.
  - destruct (String.eqb_spec k0 k) as [->|Hne]; simpl.
    + destruct (k =? k'); reflexivity.
    + rewrite IH. destruct (String.eqb_spec k k') as [<-|Hne'].
      * destruct (String.eqb_spec k0 k); [contradiction | reflexivity].
      * reflexivity.
Qed.

Lemma get_all_set (self : Item) (k k' : string) (v : value) :
  get_all (set self k v) k'
  = if k =? k' then get_all self k' ++ [v] else get_all self k'.
Proof.
  unfold get_all, set. simpl. rewrite dict_get_append.
  destruct (k =? k'); [|reflexivity].
  destruct (dict_get (props self) k'); reflexivity.
Qed.

Lemma get_all_assign_mono (kvs : list (string * value)) :
  forall item k v,
    In v (get_all item k) -> In v (get_all (assign_all item kvs) k).
Proof.
  induction kvs as [|[k0 v0] kvs IH]; intros item k v H; simpl; [exact H|].
  apply IH. rewrite get_all_set.
  destruct (k0 =? k); [apply in_or_app; now left | exact H].
Qed.

Lemma get_all_assign_in (kvs : list (string * value)) :
  forall item k v,
    In (k, v) kvs -> In v (get_all (assign_all item kvs) k).
Proof.
  induction kvs as [|[k0 v0] kvs IH]; intros item k v H; simpl in *;
    [contradiction|].
  destruct H as [H|H].
  - inversion H; subst. apply get_all_assign_mono.
    rewrite get_all_set, String.eqb_refl. apply in_or_app. right. now left.
  - now apply IH.
Qed.

Lemma assign_all_itemtype (kvs : list (string * value)) :
  forall item, itemtype (assign_all item kvs) = itemtype item.
Proof.
  induction kvs as [|kv kvs IH]; intros item; simpl; [reflexivity|].
  now rewrite IH.
Qed.

Lemma assign_all_itemid (kvs : list (string * value)) :
  forall item, itemid (assign_all item kvs) = itemid item.
Proof.
  induction kvs as [|kv kvs IH]; intros item; simpl; [reflexivity|].
  now rewrite IH.
Qed.

Lemma props_ok_unfold (i : Item) :
  props_ok i
  = forallb (fun kv => match snd kv with [] => false | _ => true end
                       && forallb value_ok (snd kv)) (props i).
Proof. destruct i; reflexivity. Qed.

Lemma dict_append_ok (d : list (string * list value)) (k : string) (v : value) :
  forallb (fun kv => match snd kv with [] => false | _ => true end
                     && forallb value_ok (snd kv)) d = true ->
  value_ok v = true ->
  forallb (fun kv => match snd kv with [] => false | _ => true end
                     && forallb value_ok (snd kv)) (dict_append d k v) = true.
Proof.
  intros Hd Hv. induction d as [|[k0 vs] d IH]; simpl in *.
  - now rewrite Hv.
  - apply andb_true_iff in Hd. destruct Hd as [H0 Hd].
    destruct (k0 =? k); simpl.
    + rewrite Hd, andb_true_r. apply andb_true_iff in H0.
      destruct H0 as [_ H0]. rewrite forallb_app, H0. simpl. rewrite Hv.
      now destruct vs.
    + now rewrite H0, (IH Hd).
Qed.

Lemma props_ok_set (self : Item) (k : string) (v : value) :
  props_ok self = true -> value_ok v = true -> props_ok (set self k v) = true.
Proof.
  rewrite !props_ok_unfold. unfold set. simpl. apply dict_append_ok.
Qed.

Lemma props_ok_assign (kvs : list (string * value)) :
  Forall (fun kv => value_ok (snd kv) = true) kvs ->
  forall item, props_ok item = true -> props_ok (assign_all item kvs) = true.
Proof.
  induction 1 as [|kv kvs Hkv _ IH]; intros item Hi; simpl; [exact Hi|].
  apply IH. now apply props_ok_set.
Qed.

Lemma props_ok_nonempty (i : Item) :
  props_ok i = true ->
  forall name vs, In (name, vs) (props i) -> vs <> [].
Proof.
  rewrite props_ok_unfold, forallb_forall. intros H name vs Hin.
  specialize (H _ Hin). simpl in H. destruct vs; [discriminate|]. discriminate.
Qed.

Lemma scope_props_ok (e : node) :
  Forall (fun kv => value_ok (snd kv) = true) (scope_props e).
Proof.
  induction e as [t a x y cs IH] using node_induction.
  rewrite scope_props_children. simpl.
  apply Forall_flat_map. eapply Forall_impl; [|exact IH].
  cbv beta. intros c Hc. unfold child_props.
  destruct (classify c).
  - constructor; [|constructor]. simpl. unfold item_of.
    now apply props_ok_assign.
  - apply Forall_app. split; [|exact Hc].
    apply Forall_forall. intros kv Hin. apply in_map_iff in Hin.
    destruct Hin as [n [<- _]]. simpl.
    unfold _property_value, content_or_text, value_of_opt.
    repeat match goal with
           | |- context [match ?o with _ => _ end] => destruct o
           end; reflexivity.
  - constructor.
  - exact Hc.
Qed.

Lemma item_of_ok (e : node) : props_ok (item_of e) = true.
Proof. unfold item_of. apply props_ok_assign; [apply scope_props_ok | reflexivity]. Qed.

(** * Elements in the scope of an item *)

Lemma child_props_scope (e c : node) :
  In c (iterchildren e) -> incl (child_props c) (scope_props e).
Proof.
  intros Hin kv Hkv. rewrite scope_props_children.
  apply in_flat_map. now exists c.
Qed.

Lemma scope_props_child_props (x : node) :
  _is_itemscope x = false -> incl (scope_props x) (child_props x).
Proof.
  intros Hs kv Hkv. unfold child_props.
  pose proof (classify_cases x) as Hk.
  destruct (classify x) as [p|p| |]; destruct Hk as [_ Hk].
  - congruence.
  - apply in_or_app. now right.
  - congruence.
  - exact Hkv.
Qed.

Lemma scope_props_incl (e x : node) :
  in_scope e x -> _is_itemscope x = false ->
  incl (scope_props x) (scope_props e).
Proof.
  induction 1 as [x Hin | y x Hy IH Hsy Hin]; intros Hs kv Hkv.
  - apply (child_props_scope e x Hin). now apply scope_props_child_props.
  - apply (IH Hsy). apply (child_props_scope y x Hin).
    now apply scope_props_child_props.
Qed.

Lemma child_props_in_scope (e c : node) :
  in_scope e c -> incl (child_props c) (scope_props e).
Proof.
  intros H. inversion H as [c' Hin | x c' Hx Hs Hin]; subst.
  - now apply child_props_scope.
  - intros kv Hkv. apply (scope_props_incl Hx Hs).
    now apply (child_props_scope x c Hin).
Qed.

(** * [str.split] *)

Lemma split_on_nonempty (sep : ascii) (s : string) : split_on sep s <> [].
Proof.
  destruct s as [|c s]; simpl; [discriminate|].
  destruct (Ascii.eqb c sep); [discriminate|].
  destruct (split_on sep s); discriminate.
Qed.

Lemma join_split_on (sep : ascii) (s : string) :
  join (String sep "") (split_on sep s) = s.
Proof.
  induction s as [|c s IH]; simpl; [reflexivity|].
  pose proof (split_on_nonempty sep s) as Hne.
  destruct (Ascii.eqb_spec c sep) as [->|Hc].
  - destruct (split_on sep s) as [|p rest]; [contradiction|].
    simpl in *. now rewrite IH.
  - destruct (split_on sep s) as [|p rest]; [contradiction|].
    destruct rest; simpl in *; now rewrite IH.
Qed.

Lemma split_on_no_sep (sep : ascii) (s : string) :
  Forall (fun piece => contains_char sep piece = false) (split_on sep s).
Proof.
  induction s as [|c s IH]; simpl.
  - constructor; [reflexivity | constructor].
  - destruct (Ascii.eqb c sep) eqn:Hc.
    + constructor; [reflexivity | exact IH].
    + destruct (split_on sep s) as [|p rest]; simpl.
      * constructor; [simpl; now rewrite Hc | constructor].
      * inversion IH; subst. constructor; [simpl; now rewrite Hc | assumption].
Qed.

(** * Scenarios of the specification *)

Unset Implicit Arguments.

(** [<div itemscope itemtype="http://schema.org/Person">
     <span itemprop="name">Jane</span></div>] *)
Example scenario_person :
  _find_items
    (Element "div" [("itemscope", ""); ("itemtype", "http://schema.org/Person")]
             None None
             [Element "span" [("itemprop", "name")] (Some "Jane") None []])
  = Ok [mkItem (Some [mkURI (Some "http://schema.org/Person")]) None
               [("name", [VStr "Jane"])]].
Proof. reflexivity. Qed.

(** [<div itemscope><img itemprop="photo" src="p.jpg"></div>] *)
Example scenario_photo :
  _find_items
    (Element "div" [("itemscope", "")] None None
             [Element "img" [("itemprop", "photo"); ("src", "p.jpg")]
                      None None []])
  = Ok [mkItem None None [("photo", [VURI (mkURI (Some "p.jpg"))])]].
Proof. reflexivity. Qed.

(** A property below a transparent container, next to an unlinked item
    that has an unlinked item of its own:
    [<div itemscope><p><span itemprop="n">v</span></p>
       <div itemscope itemtype="A"><div itemscope itemtype="B"></div></div>
     </div>] *)
Example scenario_mixed :
  _find_items
    (Element "div" [("itemscope", "")] None None
       [Element "p" [] None None
                [Element "span" [("itemprop", "n")] (Some "v") None []];
        Element "div" [("itemscope", ""); ("itemtype", "A")] None None
                [Element "div" [("itemscope", ""); ("itemtype", "B")]
                         None None []]])
  = Ok [mkItem None None [("n", [VStr "v"])];
        mkItem (Some [mkURI (Some "A")]) None [];
        mkItem (Some [mkURI (Some "B")]) None []].
Proof. reflexivity. Qed.

(** * The claims *)

Lemma top_roots_no_itemscope (e : node) :
  no_itemscope e = true -> forall inside, top_roots inside e = [].
Proof.
  induction e as [t a x y cs IH] using node_induction.
  simpl. intros H inside. apply andb_true_iff in H. destruct H as [Hs Hcs].
  apply negb_true_iff in Hs. rewrite Hs. simpl. rewrite orb_false_r.
  clear Hs.
  induction IH as [|c cs Hc _ IHcs]; simpl in *; [reflexivity|].
  apply andb_true_iff in Hcs. destruct Hcs as [Hc1 Hc2].
  now rewrite (Hc Hc1), (IHcs Hc2).
Qed.

(** C9: for every document tree in which no element carries an itemscope
    attribute, [_find_items] applied to its root returns the empty list. *)
Theorem find_items_no_itemscope (e : node) :
  no_itemscope e = true -> _find_items e = Ok [].
Proof.
  intros H. rewrite find_items_roots.
  now rewrite (top_roots_no_itemscope e H).
Qed.

Lemma find_items_no_itemscope_witness :
  no_itemscope Sample.no_items_doc = true
  /\ _find_items Sample.no_items_doc = Ok [].
Proof.
  split; [reflexivity|].
  apply (find_items_no_itemscope Sample.no_items_doc). reflexivity.
Defined.

(** C1, as stated, fails on the nested-item scenario of the
    specification: the Person item is stored under "author" in the outer
    item and the flat result list holds the outer item only. *)
Lemma nested_item_not_in_flat_list :
  _find_items Sample.nested_doc = Ok [Sample.outer_item]
  /\ get_all Sample.outer_item "author" = [VItem Sample.person_item]
  /\ ~ In Sample.person_item [Sample.outer_item].
Proof.
  split; [reflexivity|]. split; [reflexivity|].
  intros [H|[]]. discriminate H.
Qed.

(** C1, amended: the list returned by [_find_items] holds, in document
    order, one Item for every itemscope element that has no itemscope
    ancestor or whose itemprop is missing or empty.  An itemscope element
    with a non-empty itemprop in the scope of an item yields an Item that
    is a value of that item under the itemprop name, and is itself no
    entry of the flat list: what its subtree adds to the list is what its
    children add. *)
Theorem find_items_top_roots (e : node) :
  _find_items e = Ok (map item_of (top_roots false e))
  /\ (forall n, _is_itemscope n = true ->
                (item <- _make_item n ;; _extract n item)
                = Ok (item_of n, unlinked_of n))
  /\ forall child p,
      _is_itemscope e = true ->
      in_scope e child ->
      classify child = NestedItem p ->
      In (VItem (item_of child)) (get_all (item_of e) p)
      /\ top_roots true child
         = flat_map (top_roots true) (iterchildren child).
Proof.
  split; [apply find_items_roots|]. split; [apply extract_item_of|].
  intros child p _ Hscope Hk. split.
  - unfold item_of at 2. apply get_all_assign_in.
    apply (child_props_in_scope Hscope).
    unfold child_props. rewrite Hk. now left.
  - pose proof (classify_cases child) as Hc. rewrite Hk in Hc.
    destruct Hc as [Hp Hs].
    rewrite top_roots_unfold, Hs, if_truthy_truthy, Hp. reflexivity.
Qed.

Lemma find_items_top_roots_witness :
  _is_itemscope Sample.nested_doc = true
  /\ in_scope Sample.nested_doc Sample.author_div
  /\ classify Sample.author_div = NestedItem "author"
  /\ _find_items Sample.nested_doc
     = Ok (map item_of (top_roots false Sample.nested_doc))
  /\ In (VItem (item_of Sample.author_div))
        (get_all (item_of Sample.nested_doc) "author")
  /\ top_roots true Sample.author_div
     = flat_map (top_roots true) (iterchildren Sample.author_div).
Proof.
  assert (Hs : _is_itemscope Sample.nested_doc = true) by reflexivity.
  assert (Hc : in_scope Sample.nested_doc Sample.author_div)
    by (apply scope_child; simpl; now left).
  assert (Hk : classify Sample.author_div = NestedItem "author") by reflexivity.
  destruct (find_items_top_roots Sample.nested_doc) as [H1 [_ H2]].
  destruct (H2 Sample.author_div "author" Hs Hc Hk) as [H3 H4].
  repeat split; assumption.
Defined.

(** C2: the text that follows a script element among its siblings is
    not part of the computed text.  [_textiter] skips the end event of an
    element that fails the predicate as it skips its start event, and the
    tail is read at the end event: for [<p>a<script>s</script>b</p>] the
    text is "a", where the text of the element and its descendants
    without the script content is "ab"; as a property,
    [<div itemscope><p itemprop="x">a<script>s</script>b</p></div>]
    gives x = "a". *)
Theorem script_tail_dropped :
  _text Sample.script_doc = "a"
  /\ spec_text Sample.script_doc = "ab"
  /\ _text Sample.script_doc <> spec_text Sample.script_doc
  /\ textiter_step (Some not_script)
       (ev_end, [0], Element "script" [] (Some "s") (Some "b") []) = []
  /\ textiter_step None
       (ev_end, [0], Element "script" [] (Some "s") (Some "b") []) = ["b"]
  /\ _find_items
       (Element "div" [("itemscope", "")] None None
          [Element "p" [("itemprop", "x")] (Some "a") None
             [Element "script" [] (Some "s") (Some "b") []]])
     = Ok [mkItem None None [("x", [VStr "a"])]].
Proof.
  split; [reflexivity|]. split; [reflexivity|]. split; [discriminate|].
  split; [reflexivity|]. split; reflexivity.
Qed.

(** C3: an element with itemprop="a b" and itemscope stores its nested
    Item under the single name "a b"; the sibling branch for an element
    without itemscope splits the names. *)
Theorem scoped_itemprop_not_split :
  _find_items Sample.fanout_scoped_doc
  = Ok [mkItem None None [("a b", [VItem (mkItem None None [])])]]
  /\ _find_items Sample.fanout_doc
     = Ok [mkItem None None [("a", [VStr "X"]); ("b", [VStr "X"])]].
Proof. split; reflexivity. Qed.

Lemma find_items_scoped (e : node) :
  _is_itemscope e = true ->
  _find_items e
  = Ok (item_of e :: map item_of (flat_map (top_roots true) (iterchildren e))).
Proof.
  intros Hs. rewrite find_items_roots, top_roots_unfold, Hs. reflexivity.
Qed.

(** C4, as stated, fails: a tab between two types does not separate
    them. *)
Lemma itemtype_tab_not_split :
  _make_item Sample.two_types_tab
  = Ok (mkItem (Some [mkURI (Some ("T1" ++ Sample.tab ++ "T2")%string)]) None [])
  /\ spec_split_whitespace ("T1" ++ Sample.tab ++ "T2") = ["T1"; "T2"]
  /\ Some [mkURI (Some ("T1" ++ Sample.tab ++ "T2")%string)]
     <> Some (map (fun s => mkURI (Some s))
                  (spec_split_whitespace ("T1" ++ Sample.tab ++ "T2"))).
Proof.
  split; [reflexivity|]. split; [reflexivity|]. discriminate.
Qed.

(** C4, amended: for an element with itemscope whose itemtype attribute
    is present and not empty, the types of the constructed Item are the
    pieces of the attribute value cut at every space character, in order
    (itemtype="T1 T2" gives [T1, T2]): the pieces joined by single spaces
    give the value back and no piece holds a space.  The Item has no
    types when the attribute is absent or empty.  The same holds for the
    Item [_find_items] returns for the element. *)
Theorem itemtype_split_on_space (e : node) (v : string) :
  _is_itemscope e = true ->
  (_attr e "itemtype" = Some v -> v <> "" ->
   exists item rest,
     _make_item e = Ok item
     /\ itemtype item = Some (map (fun s => mkURI (Some s)) (split v))
     /\ _find_items e = Ok (item_of e :: rest)
     /\ itemtype (item_of e) = itemtype item)
  /\ join " " (split v) = v
  /\ Forall (fun piece => contains_char " " piece = false) (split v)
  /\ split "T1 T2" = ["T1"; "T2"]
  /\ (_attr e "itemtype" = None \/ _attr e "itemtype" = Some "" ->
      exists item,
        _make_item e = Ok item /\ itemtype item = None
        /\ itemtype (item_of e) = None).
Proof.
  intros Hs. split; [|split; [|split; [|split]]].
  - intros Hv Hne.
    exists (__init__ (_attr e "itemtype") (_attr e "itemid")).
    eexists. split; [now apply make_item_scoped|]. split.
    + rewrite Hv. simpl.
      destruct (String.eqb_spec v ""); [contradiction | reflexivity].
    + split; [now apply find_items_scoped|].
      unfold item_of. apply assign_all_itemtype.
  - apply join_split_on.
  - apply split_on_no_sep.
  - reflexivity.
  - intros Hv. exists (__init__ (_attr e "itemtype") (_attr e "itemid")).
    split; [now apply make_item_scoped|].
    assert (H : itemtype (__init__ (_attr e "itemtype") (_attr e "itemid")) = None)
      by (destruct Hv as [-> | ->]; reflexivity).
    split; [exact H|]. unfold item_of. now rewrite assign_all_itemtype.
Qed.

Lemma itemtype_split_on_space_witness :
  _is_itemscope Sample.two_types = true
  /\ _attr Sample.two_types "itemtype" = Some "T1 T2"
  /\ "T1 T2" <> ""
  /\ exists item rest,
       _make_item Sample.two_types = Ok item
       /\ itemtype item = Some (map (fun s => mkURI (Some s)) (split "T1 T2"))
       /\ _find_items Sample.two_types = Ok (item_of Sample.two_types :: rest)
       /\ itemtype (item_of Sample.two_types) = itemtype item.
Proof.
  assert (Hs : _is_itemscope Sample.two_types = true) by reflexivity.
  assert (Hv : _attr Sample.two_types "itemtype" = Some "T1 T2") by reflexivity.
  assert (Hne : "T1 T2" <> "") by discriminate.
  split; [exact Hs|]. split; [exact Hv|]. split; [exact Hne|].
  exact (proj1 (itemtype_split_on_space Sample.two_types "T1 T2" Hs) Hv Hne).
Defined.













(** The attributes the table maps to. *)
Lemma property_values_range (t attrib : string) :
  dict_get property_values t = Some attrib ->
  In attrib ["content"; "src"; "href"; "data"; "datetime"].
Proof.
  unfold property_values. simpl.
  repeat match goal with
         | |- context [if ?b then _ else _] => destruct b
         end;
    intros H; inversion H; subst; simpl; tauto.
Qed.

(** C6, as stated, fails for the tags mapped to src or href: the value is
    a URI object around None, not None. *)
Lemma missing_src_is_uri_object :
  dict_get property_values (tag Sample.img_no_src) = Some "src"
  /\ _attr Sample.img_no_src "src" = None
  /\ _property_value Sample.img_no_src = VURI (mkURI None)
  /\ _property_value Sample.img_no_src <> VNone.
Proof.
  split; [reflexivity|]. split; [reflexivity|]. split; [reflexivity|].
  discriminate.
Qed.

(** The value of a property element is stored under every name of its
    itemprop, in the item in whose scope the element lies. *)
Lemma property_under_every_name (e c : node) (item : Item) (p : string) :
  in_scope e c ->
  classify c = Property p ->
  exists item' unlinked,
    _extract e item = Ok (item', unlinked)
    /\ forall n, In n (split p) ->
                 In (_property_value c) (get_all item' n).
Proof.
  intros Hscope Hk.
  exists (assign_all item (scope_props e)), (unlinked_of e).
  split; [apply extract_correct|].
  intros n Hn. apply get_all_assign_in.
  apply (child_props_in_scope Hscope).
  unfold child_props. rewrite Hk. apply in_or_app. left.
  apply in_map_iff. now exists n.
Qed.

(** C6, amended: for a property element (non-empty itemprop, no
    itemscope) whose tag has a mapped attribute that is absent, computing
    the value raises nothing: the value is None for the tags mapped to
    content, data and datetime, and a URI object whose string is None for
    the tags mapped to src and href.  Extraction returns, and the value
    is stored in the enclosing Item under every name of the itemprop. *)
Theorem missing_mapped_attribute (e c : node) (item : Item)
        (p attrib : string) :
  in_scope e c ->
  classify c = Property p ->
  dict_get property_values (tag c) = Some attrib ->
  _attr c attrib = None ->
  _property_value c = missing_value attrib
  /\ exists item' unlinked,
      _extract e item = Ok (item', unlinked)
      /\ forall n, In n (split p) ->
                   In (missing_value attrib) (get_all item' n).
Proof.
  intros Hscope Hk Ht Ha.
  assert (Hv : _property_value c = missing_value attrib).
  { unfold _property_value, missing_value. rewrite Ht, Ha.
    destruct ((attrib =? "href") || (attrib =? "src")); [reflexivity|].
    pose proof (property_values_range _ _ Ht) as Hr. simpl in Hr.
    destruct Hr as [<-|[<-|[<-|[<-|[<-|[]]]]]]; reflexivity. }
  split; [exact Hv|]. rewrite <- Hv.
  now apply property_under_every_name.
Qed.

Lemma missing_mapped_attribute_witness :
  in_scope Sample.missing_attr_doc Sample.meta_no_content
  /\ classify Sample.meta_no_content = Property "m"
  /\ dict_get property_values (tag Sample.meta_no_content) = Some "content"
  /\ _attr Sample.meta_no_content "content" = None
  /\ _property_value Sample.meta_no_content = VNone
  /\ exists item' unlinked,
       _extract Sample.missing_attr_doc (__init__ None None)
       = Ok (item', unlinked)
       /\ forall n, In n (split "m") -> In VNone (get_all item' n).
Proof.
  assert (Hc : in_scope Sample.missing_attr_doc Sample.meta_no_content)
    by (apply scope_child; simpl; tauto).
  assert (Hk : classify Sample.meta_no_content = Property "m") by reflexivity.
  assert (Ht : dict_get property_values (tag Sample.meta_no_content)
               = Some "content") by reflexivity.
  assert (Ha : _attr Sample.meta_no_content "content" = None) by reflexivity.
  repeat (split; [assumption|]).
  exact (missing_mapped_attribute Sample.missing_attr_doc
           Sample.meta_no_content (__init__ None None) "m" "content"
           Hc Hk Ht Ha).
Defined.

(** C7, as stated, fails: a content attribute that is present and empty
    is passed over and the computed text is the value. *)
Lemma empty_content_gives_text :
  dict_get property_values (tag Sample.empty_content) = None
  /\ _attr Sample.empty_content "content" = Some ""
  /\ _property_value Sample.empty_content = VStr "hi"
  /\ _property_value Sample.empty_content <> VStr "".
Proof.
  split; [reflexivity|]. split; [reflexivity|]. split; [reflexivity|].
  discriminate.
Qed.

(** C7, amended: for an element whose tag has no mapped attribute, the
    property value is the content attribute string whenever that
    attribute is present and not empty, and the computed text of the
    element when the attribute is absent or empty. *)
Theorem unmapped_tag_value (e : node) :
  dict_get property_values (tag e) = None ->
  (forall s, _attr e "content" = Some s -> s <> "" ->
             _property_value e = VStr s)
  /\ (_attr e "content" = None \/ _attr e "content" = Some "" ->
      _property_value e = VStr (_text e)).
Proof.
  intros Ht. unfold _property_value, content_or_text. rewrite Ht. split.
  - intros s Hs Hne. rewrite Hs. simpl.
    destruct (String.eqb_spec s ""); [contradiction | reflexivity].
  - intros [-> | ->]; reflexivity.
Qed.

Lemma unmapped_tag_value_witness :
  dict_get property_values (tag Sample.with_content) = None
  /\ _attr Sample.with_content "content" = Some "c"
  /\ "c" <> ""
  /\ _property_value Sample.with_content = VStr "c".
Proof.
  assert (Ht : dict_get property_values (tag Sample.with_content) = None)
    by reflexivity.
  assert (Hs : _attr Sample.with_content "content" = Some "c") by reflexivity.
  assert (Hne : "c" <> "") by discriminate.
  repeat (split; [assumption|]).
  exact (proj1 (unmapped_tag_value Sample.with_content Ht) "c" Hs Hne).
Defined.

Lemma dict_append_nonempty {V : Type} (d : list (string * list V))
      (k : string) (v : V) :
  (forall name vs, In (name, vs) d -> vs <> []) ->
  forall name vs, In (name, vs) (dict_append d k v) -> vs <> [].
Proof.
  induction d as [|[k0 vs0] d IH]; intros Hd name vs Hin; simpl in Hin.
  - destruct Hin as [H|[]]. inversion H. discriminate.
  - destruct (k0 =? k); simpl in Hin; destruct Hin as [H|H].
    + inversion H. destruct vs0; discriminate.
    + apply (Hd name vs). now right.
    + inversion H; subst. apply (Hd name vs). now left.
    + apply IH with (name := name); [|exact H].
      intros n' vs' Hin'. apply (Hd n' vs'). now right.
Qed.

(** C8: an Item has a property mapping from construction on, empty at
    first; [set], the one operation that changes the mapping, keeps every
    name present mapped to a non-empty list, whatever is stored; and every
    Item [_find_items] returns, with the Items nested in it, satisfies the
    invariant. *)
Theorem item_props_invariant :
  (forall itemtype itemid,
      props (__init__ itemtype itemid) = []
      /\ names_nonempty (__init__ itemtype itemid))
  /\ (forall self name v,
         names_nonempty self -> names_nonempty (set self name v))
  /\ (forall e, exists items,
         _find_items e = Ok items
         /\ Forall (fun i => props_ok i = true) items)
  /\ (forall i, props_ok i = true -> names_nonempty i).
Proof.
  split; [|split; [|split]].
  - intros t d. split; [reflexivity|]. intros name vs [].
  - intros self name v H. unfold names_nonempty, set. simpl.
    now apply dict_append_nonempty.
  - intros e. eexists. split; [apply find_items_roots|].
    apply Forall_forall. intros i Hin. apply in_map_iff in Hin.
    destruct Hin as [n [<- _]]. apply item_of_ok.
  - intros i H. unfold names_nonempty. now apply props_ok_nonempty.
Qed.

Lemma item_props_invariant_witness :
  names_nonempty Sample.outer_item
  /\ names_nonempty (set Sample.outer_item "author" VNone)
  /\ props_ok Sample.outer_item = true.
Proof.
  assert (H : props_ok Sample.outer_item = true) by reflexivity.
  assert (Hn : names_nonempty Sample.outer_item)
    by exact (proj2 (proj2 (proj2 item_props_invariant)) Sample.outer_item H).
  split; [exact Hn|]. split; [|exact H].
  exact (proj1 (proj2 item_props_invariant) Sample.outer_item "author" VNone Hn).
Defined.

(** An empty itemtype or itemid attribute sets nothing on the Item. *)
Lemma init_empty_attributes (e : node) :
  _attr e "itemtype" = Some "" -> _attr e "itemid" = Some "" ->
  __init__ (_attr e "itemtype") (_attr e "itemid") = mkItem None None []
  /\ json_dict (mkItem None None []) = Ok [("properties", PDict [])].
Proof. intros -> ->. split; reflexivity. Qed.

(** When the Item has neither types nor id and no property is named
    "itemtype" or "itemid", a record returned by [json_dict] has the one
    key "properties". *)
Lemma json_dict_without_type_and_id (self : Item) (d : list (string * pyval)) :
  itemtype self = None -> itemid self = None ->
  dict_get (props self) "itemtype" = None ->
  dict_get (props self) "itemid" = None ->
  json_dict self = Ok d ->
  exists properties, d = [("properties", properties)].
Proof.
  destruct self as [t i ps]. simpl. intros -> -> Ht Hi.
  unfold Attr.item_itemtype, Attr.item_itemid, get, get_all. simpl.
  rewrite Ht, Hi. simpl.
  match goal with
  | |- Py.bind ?m _ = _ -> _ => destruct m as [properties| |]
  end; simpl; intros H; inversion H. now eexists.
Qed.

(** C10: with itemid="" no id is stored on the Item, yet [json_dict]
    reads [self.itemid] through [__getattr__] and finds the property named
    "itemid": the record gets an "id" key.  With itemtype="" and a text
    property named "itemtype" the same lookup makes [json_dict] raise. *)
Theorem empty_itemid_shadowed_by_property :
  _find_items Sample.empty_id_doc
  = Ok [mkItem None None [("itemid", [VURI (mkURI (Some "u"))])]]
  /\ json_dict (mkItem None None [("itemid", [VURI (mkURI (Some "u"))])])
     = Ok [("id", PStr "u");
           ("properties", PDict [("itemid", PList [PStr "u"])])]
  /\ _find_items Sample.empty_type_doc
     = Ok [mkItem None None [("itemtype", [VStr "x"])]]
  /\ json_dict (mkItem None None [("itemtype", [VStr "x"])])
     = Raise AttributeError.
Proof. repeat split; reflexivity. Qed.

(** * Further properties of the module *)

(** ** Lists, names and dictionaries *)

Lemma existsb_eqb_false (x : string) (l : list string) :
  existsb (String.eqb x) l = false <-> ~ In x l.
Proof.
  split.
  - intros H Hin.
    assert (Ht : existsb (String.eqb x) l = true).
    { apply existsb_exists. exists x. split; [exact Hin | apply String.eqb_refl]. }
    congruence.
  - intros H. destruct (existsb (String.eqb x) l) eqn:E; [|reflexivity].
    apply existsb_exists in E. destruct E as [y [Hy Heq]].
    apply String.eqb_eq in Heq. subst. contradiction.
Qed.

Lemma nodupb_NoDup (l : list string) : nodupb l = true <-> NoDup l.
Proof.
  induction l as [|x l IH]; simpl.
  - split; [constructor | reflexivity].
  - rewrite andb_true_iff, negb_true_iff, existsb_eqb_false, IH. split.
    + intros [H1 H2]. now constructor.
    + intros H. inversion H. now split.
Qed.

Lemma nodupb_snoc (l : list string) (k : string) :
  nodupb l = true -> existsb (String.eqb k) l = false ->
  nodupb (l ++ [k]) = true.
Proof.
  rewrite !nodupb_NoDup, existsb_eqb_false. intros Hl Hk.
  induction Hl as [|x l Hx Hl IH]; simpl.
  - constructor; [intros [] | constructor].
  - constructor.
    + rewrite in_app_iff. intros [H|[H|[]]]; [contradiction|].
      subst. apply Hk. now left.
    + apply IH. intros Hin. apply Hk. now right.
Qed.

Lemma dict_get_absent {V : Type} (d : list (string * V)) (k : string) :
  ~ In k (map fst d) -> dict_get d k = None.
Proof.
  induction d as [|[k0 v] d IH]; simpl; intros H; [reflexivity|].
  destruct (String.eqb_spec k0 k) as [->|Hne].
  - exfalso. apply H. now left.
  - apply IH. intros Hin. apply H. now right.
Qed.

Lemma dict_append_fresh {V : Type} (acc : list (string * list V))
      (name : string) (x : V) :
  ~ In name (map fst acc) -> dict_append acc name x = acc ++ [(name, [x])].
Proof.
  induction acc as [|[k vs] acc IH]; simpl; intros H; [reflexivity|].
  destruct (String.eqb_spec k name) as [->|Hne].
  - exfalso. apply H. now left.
  - rewrite IH; [reflexivity|]. intros Hin. apply H. now right.
Qed.

Lemma dict_append_last {V : Type} (acc : list (string * list V))
      (name : string) (l : list V) (x : V) :
  ~ In name (map fst acc) ->
  dict_append (acc ++ [(name, l)]) name x = acc ++ [(name, l ++ [x])].
Proof.
  induction acc as [|[k vs] acc IH]; simpl; intros H.
  - now rewrite String.eqb_refl.
  - destruct (String.eqb_spec k name) as [->|Hne].
    + exfalso. apply H. now left.
    + rewrite IH; [reflexivity|]. intros Hin. apply H. now right.
Qed.

Lemma dict_append_forall (q : value -> bool) (d : list (string * list value))
      (k : string) (v : value) :
  forallb (fun kv => forallb q (snd kv)) d = true ->
  q v = true ->
  forallb (fun kv => forallb q (snd kv)) (dict_append d k v) = true.
Proof.
  intros Hd Hv. induction d as [|[k0 vs] d IH]; simpl in *.
  - now rewrite Hv.
  - apply andb_true_iff in Hd. destruct Hd as [H0 Hd].
    destruct (k0 =? k); simpl.
    + rewrite Hd, andb_true_r, forallb_app, H0. simpl. now rewrite Hv.
    + now rewrite H0, (IH Hd).
Qed.

Lemma flat_map_one {A B : Type} (f : A -> list B) (x : A) :
  flat_map f [x] = f x.
Proof. simpl. apply app_nil_r. Qed.


Lemma list_sum_flat_map {A B : Type} (f : B -> nat) (g : A -> list B)
      (l : list A) :
  list_sum (map f (flat_map g l))
  = list_sum (map (fun x => list_sum (map f (g x))) l).
Proof.
  induction l as [|x l IH]; simpl; [reflexivity|].
  now rewrite map_app, list_sum_app, IH.
Qed.

Lemma names_dict_append (d : list (string * list value)) (k : string) (v : value) :
  map fst (dict_append d k v)
  = if existsb (String.eqb k) (map fst d) then map fst d else map fst d ++ [k].
Proof.
  induction d as [|[k0 vs] d IH]; simpl; [reflexivity|].
  rewrite (String.eqb_sym k k0).
  destruct (k0 =? k); simpl; [reflexivity|].
  rewrite IH. now destruct (existsb (String.eqb k) (map fst d)).
Qed.

(** The three branches of the property-value rule. *)
Lemma property_value_cases (e : node) :
  match dict_get property_values (tag e) with
  | Some attrib =>
      In attrib ["content"; "src"; "href"; "data"; "datetime"]
      /\ _property_value e
         = if (attrib =? "href") || (attrib =? "src")
           then VURI (mkURI (_attr e attrib))
           else value_of_opt (_attr e attrib)
  | None => exists s, _property_value e = VStr s
  end.
Proof.
  unfold _property_value.
  destruct (dict_get property_values (tag e)) as [attrib|] eqn:Ht.
  - pose proof (property_values_range _ _ Ht) as Hr. split; [exact Hr|].
    simpl in Hr.
    destruct Hr as [<-|[<-|[<-|[<-|[<-|[]]]]]]; reflexivity.
  - unfold content_or_text.
    destruct (_attr e "content") as [s|]; simpl.
    + destruct (s =? ""); simpl; eexists; reflexivity.
    + eexists; reflexivity.
Qed.

(** ** The [Item] class *)

(** X1: after [set(name, v)], [get_all(name)] is the former list with
    [v] added at its end and the list of every other name is unchanged;
    [get(name)] keeps returning the first value ever stored under the
    name, and returns [v] when the name was new. *)
Theorem set_then_get (self : Item) (k k' : string) (v : value) :
  get_all (set self k v) k'
  = (if k =? k' then get_all self k' ++ [v] else get_all self k')
  /\ get (set self k v) k'
     = (if k =? k'
        then match get_all self k' with
             | first :: _ => first
             | [] => v
             end
        else get self k').
Proof.
  split; [apply get_all_set|].
  unfold get. rewrite get_all_set.
  destruct (k =? k'); [|reflexivity].
  now destruct (get_all self k').
Qed.

Lemma names_set (self : Item) (k : string) (v : value) :
  names (set self k v)
  = if has_name self k then names self else names self ++ [k].
Proof. unfold names, has_name, set. simpl. apply names_dict_append. Qed.

(** X2: [set] never removes or reorders a property name and never
    stores a name twice: a name already in the mapping keeps its place, a
    new name goes to the end. *)
Theorem set_keeps_name_order (self : Item) (k : string) (v : value) :
  names (set self k v)
  = (if has_name self k then names self else names self ++ [k])
  /\ (nodupb (names self) = true -> nodupb (names (set self k v)) = true).
Proof.
  split; [apply names_set|].
  rewrite names_set. unfold has_name.
  destruct (existsb (String.eqb k) (names self)) eqn:E; [tauto|].
  intros H. now apply nodupb_snoc.
Qed.

Lemma set_keeps_name_order_witness :
  nodupb (names Sample.outer_item) = true
  /\ nodupb (names (set Sample.outer_item "editor" VNone)) = true.
Proof.
  assert (H : nodupb (names Sample.outer_item) = true) by reflexivity.
  split; [exact H|].
  exact (proj2 (set_keeps_name_order Sample.outer_item "editor" VNone) H).
Defined.

(** ** [_extract] *)

Lemma get_all_assign_all (kvs : list (string * value)) :
  forall item n,
    get_all (assign_all item kvs) n = get_all item n ++ values_named n kvs.
Proof.
  unfold values_named.
  induction kvs as [|[k v] kvs IH]; intros item n; simpl.
  - now rewrite app_nil_r.
  - rewrite IH, get_all_set.
    destruct (k =? n); simpl; [now rewrite <- app_assoc | reflexivity].
Qed.

Lemma names_assign_all (kvs : list (string * value)) :
  forall item, exists added, names (assign_all item kvs) = names item ++ added.
Proof.
  induction kvs as [|[k v] kvs IH]; intros item; simpl.
  - exists []. now rewrite app_nil_r.
  - destruct (IH (set item k v)) as [added Ha]. rewrite Ha.
    rewrite names_set.
    destruct (has_name item k).
    + now exists added.
    + exists (k :: added). now rewrite <- app_assoc.
Qed.

(** X3: [_extract] returns for every element and Item, and only adds to
    the Item: types and id stay, the names already there keep their
    places, and under every name the values already there are followed by
    the values assigned in the scope of the element, in document order. *)
Theorem extract_only_appends (e : node) (item : Item) :
  exists item' unlinked,
    _extract e item = Ok (item', unlinked)
    /\ itemtype item' = itemtype item
    /\ itemid item' = itemid item
    /\ (exists added, names item' = names item ++ added)
    /\ forall n,
        get_all item' n = get_all item n ++ values_named n (scope_props e).
Proof.
  exists (assign_all item (scope_props e)), (unlinked_of e).
  split; [apply extract_correct|].
  split; [apply assign_all_itemtype|].
  split; [apply assign_all_itemid|].
  split; [apply names_assign_all|].
  intros n. apply get_all_assign_all.
Qed.

Lemma descendant_child_trans (e c n : node) :
  In c (iterchildren e) -> descendant c n -> descendant e n.
Proof.
  intros Hin H. induction H as [n Hn | x n _ IH Hn].
  - eapply desc_deeper; [apply desc_child; exact Hin | exact Hn].
  - eapply desc_deeper; [exact IH | exact Hn].
Qed.

Lemma unlinked_of_descendants (e : node) :
  Forall (descendant e) (unlinked_of e).
Proof.
  induction e as [t a x y cs IH] using node_induction.
  rewrite unlinked_of_children.
  apply Forall_flat_map. rewrite Forall_forall. intros c Hin.
  rewrite Forall_forall in IH. specialize (IH c Hin).
  unfold child_unlinked. destruct (classify c).
  1,2,4: eapply Forall_impl; [|exact IH]; cbv beta; intros n Hn;
    now apply (descendant_child_trans _ c).
  constructor; [now apply desc_child | constructor].
Qed.

(** X4: the list [_extract] returns does not depend on the Item it is
    given, and each of its elements is a proper descendant of the
    element, carries itemscope and has no itemprop or an empty one. *)
Theorem extract_unlinked_elements (e : node) (item1 item2 : Item) :
  exists item1' item2' unlinked,
    _extract e item1 = Ok (item1', unlinked)
    /\ _extract e item2 = Ok (item2', unlinked)
    /\ Forall (fun n => descendant e n
                        /\ _is_itemscope n = true
                        /\ truthy (_attr n "itemprop") = false)
              unlinked.
Proof.
  exists (assign_all item1 (scope_props e)), (assign_all item2 (scope_props e)),
    (unlinked_of e).
  split; [apply extract_correct|]. split; [apply extract_correct|].
  pose proof (unlinked_of_descendants e) as Hd.
  pose proof (unlinked_of_below e) as Hb.
  rewrite Forall_forall in *. intros n Hin.
  split; [now apply Hd|].
  destruct (Hb n Hin) as [Hk _].
  pose proof (classify_cases n) as Hc. rewrite Hk in Hc.
  destruct Hc as [Hp Hs]. split; [exact Hs|].
  now rewrite if_truthy_truthy, Hp.
Qed.

(** ** [_find_items] *)

Lemma extend_each_partial {A B : Type} (f : A -> result (list B))
      (g : A -> list B) (xs : list A) :
  Forall (fun x => f x = OutOfFuel \/ f x = Ok (g x)) xs ->
  forall acc,
    extend_each f xs acc = OutOfFuel
    \/ extend_each f xs acc = Ok (acc ++ flat_map g xs).
Proof.
  induction 1 as [|x xs Hx _ IH]; intros acc; simpl.
  - right. now rewrite app_nil_r.
  - destruct Hx as [-> | ->]; simpl; [now left|].
    destruct (IH (acc ++ g x)) as [-> | ->]; [now left|].
    right. now rewrite <- app_assoc.
Qed.

Lemma find_items_fuel_partial (fuel : nat) :
  forall e,
    _find_items_fuel fuel e = OutOfFuel
    \/ _find_items_fuel fuel e = Ok (map item_of (top_roots false e)).
Proof.
  induction fuel as [|fuel IH]; intros e; [now left|].
  simpl. unfold _is_element. simpl. rewrite top_roots_unfold.
  destruct (_is_itemscope e) eqn:Hs; simpl.
  - pose proof (extract_item_of e Hs) as He.
    destruct (_make_item e) as [item| |]; simpl in He; try discriminate.
    simpl. rewrite He. simpl.
    destruct (@extend_each_partial _ _ (_find_items_fuel fuel)
                (fun u => map item_of (top_roots true u)) (unlinked_of e))
      with (acc := [item_of e]) as [-> | ->].
    + eapply Forall_impl; [|apply unlinked_of_below].
      cbv beta. intros u [Hu _].
      rewrite <- (top_roots_unlinked u Hu). apply IH.
    + now left.
    + right. now rewrite map_flat_map_comm, top_roots_unlinked_of.
  - destruct (@extend_each_partial _ _ (_find_items_fuel fuel)
                (fun c => map item_of (top_roots false c)) (iterchildren e))
      with (acc := @nil Item) as [-> | ->].
    + apply Forall_forall. intros c _. apply IH.
    + now left.
    + right. now rewrite map_flat_map_comm.
Qed.

(** X5: whatever recursion depth it is allowed, [_find_items] either
    returns its list or runs out of depth: it raises nothing, in
    particular never the ValueError of [_make_item], which it and
    [_extract] call on elements with itemscope only.  From a depth equal
    to the height of the tree on it returns, always with the same
    list. *)
Theorem find_items_raises_nothing (e : node) (fuel : nat) :
  (forall x, _find_items_fuel fuel e <> Raise x)
  /\ (forall item x, _extract e item <> Raise x)
  /\ exists items,
      _find_items e = Ok items
      /\ (_find_items_fuel fuel e = OutOfFuel
          \/ _find_items_fuel fuel e = Ok items)
      /\ forall extra, _find_items_fuel (height e + extra) e = Ok items.
Proof.
  split; [|split].
  - intros x. destruct (find_items_fuel_partial fuel e) as [-> | ->];
      discriminate.
  - intros item x. rewrite extract_correct. discriminate.
  - exists (map item_of (top_roots false e)).
    split; [apply find_items_roots|].
    split; [apply find_items_fuel_partial|].
    intros extra. apply find_items_fuel_roots. lia.
Qed.

Lemma top_roots_some_itemscope (e : node) :
  no_itemscope e = false -> top_roots false e <> [].
Proof.
  induction e as [t a x y cs IH] using node_induction.
  rewrite top_roots_unfold. simpl.
  destruct (_is_itemscope (Element t a x y cs)) eqn:Hs; simpl.
  - discriminate.
  - intros H. clear Hs.
    induction IH as [|c cs Hc _ IHcs]; simpl in *; [discriminate|].
    destruct (no_itemscope c) eqn:Hn; simpl in H.
    + intros Happ. apply app_eq_nil in Happ. destruct Happ as [_ Happ].
      exact (IHcs H Happ).
    + intros Happ. apply app_eq_nil in Happ. destruct Happ as [Happ _].
      exact (Hc eq_refl Happ).
Qed.

(** X6: when some element of the tree carries itemscope, [_find_items]
    returns at least one Item (with C9: the list is empty exactly when no
    element carries itemscope). *)
Theorem find_items_some_itemscope (e : node) :
  no_itemscope e = false ->
  exists item rest, _find_items e = Ok (item :: rest).
Proof.
  intros H. rewrite find_items_roots.
  pose proof (top_roots_some_itemscope e H) as Hne.
  destruct (top_roots false e) as [|r rs]; [contradiction|].
  now exists (item_of r), (map item_of rs).
Qed.

Lemma find_items_some_itemscope_witness :
  no_itemscope Sample.nested_doc = false
  /\ exists item rest, _find_items Sample.nested_doc = Ok (item :: rest).
Proof.
  assert (H : no_itemscope Sample.nested_doc = false) by reflexivity.
  split; [exact H|].
  exact (find_items_some_itemscope Sample.nested_doc H).
Defined.

(** ** Every itemscope element gives one Item *)

Lemma all_items_props (i : Item) :
  all_items i = i :: props_items (props i).
Proof. destruct i; reflexivity. Qed.

Lemma perm_swap_app {A : Type} (a b c : list A) :
  Permutation ((a ++ b) ++ c) ((a ++ c) ++ b).
Proof.
  rewrite <- !app_assoc. apply Permutation_app_head, Permutation_app_comm.
Qed.

Lemma perm_interleave {A : Type} (a b c d : list A) :
  Permutation ((a ++ b) ++ (c ++ d)) ((a ++ c) ++ (b ++ d)).
Proof.
  rewrite <- !app_assoc. apply Permutation_app_head.
  rewrite !app_assoc. apply Permutation_app_tail, Permutation_app_comm.
Qed.

Lemma props_items_append (d : list (string * list value)) (k : string)
      (v : value) :
  Permutation (props_items (dict_append d k v)) (props_items d ++ value_items v).
Proof.
  unfold props_items.
  induction d as [|[k0 vs] d IH]; cbn [dict_append flat_map snd].
  - rewrite !app_nil_r. apply Permutation_refl.
  - destruct (k0 =? k); cbn [flat_map snd].
    + rewrite flat_map_app. cbn [flat_map]. rewrite app_nil_r.
      apply perm_swap_app.
    + rewrite <- app_assoc. now apply Permutation_app_head.
Qed.

Lemma props_items_assign (kvs : list (string * value)) :
  forall item,
    Permutation (props_items (props (assign_all item kvs)))
                (props_items (props item) ++ assigned_items kvs).
Proof.
  unfold assigned_items.
  induction kvs as [|[k v] kvs IH]; intros item; cbn [assign_all fold_left flat_map].
  - rewrite app_nil_r. apply Permutation_refl.
  - eapply perm_trans; [apply IH|]. cbn [fst snd].
    unfold set at 1. cbn [props]. rewrite app_assoc.
    apply Permutation_app_tail, props_items_append.
Qed.

Lemma all_items_item_of (e : node) :
  Permutation (all_items (item_of e))
              (item_of e :: assigned_items (scope_props e)).
Proof.
  rewrite all_items_props. apply perm_skip.
  unfold item_of at 1.
  eapply perm_trans; [apply props_items_assign|]. apply Permutation_refl.
Qed.

Lemma assigned_items_app (k1 k2 : list (string * value)) :
  assigned_items (k1 ++ k2) = assigned_items k1 ++ assigned_items k2.
Proof. apply flat_map_app. Qed.

Lemma assigned_items_plain (listed : list string) (v : value) :
  value_items v = [] ->
  assigned_items (map (fun n => (n, v)) listed) = [].
Proof.
  intros Hv. unfold assigned_items.
  induction listed as [|n listed IH]; cbn [map flat_map snd]; [reflexivity|].
  now rewrite Hv, IH.
Qed.

Lemma property_value_items (e : node) : value_items (_property_value e) = [].
Proof.
  pose proof (property_value_cases e) as H.
  destruct (dict_get property_values (tag e)) as [attrib|].
  - destruct H as [_ ->].
    destruct ((attrib =? "href") || (attrib =? "src")); [reflexivity|].
    now destruct (_attr e attrib).
  - destruct H as [s ->]. reflexivity.
Qed.

Lemma scoped_elements_unfold (e : node) :
  scoped_elements e
  = (if _is_itemscope e then [e] else [])
      ++ flat_map scoped_elements (iterchildren e).
Proof. destruct e; reflexivity. Qed.

Lemma roots_items_app (r1 r2 : list node) :
  roots_items (r1 ++ r2) = roots_items r1 ++ roots_items r2.
Proof. apply flat_map_app. Qed.

(** The Items of the itemscope elements below [e] are the Items assigned
    in the scope of [e] and the Items of the entries found below [e]. *)
Lemma scoped_below_items (e : node) :
  Permutation
    (map item_of (flat_map scoped_elements (iterchildren e)))
    (assigned_items (scope_props e)
       ++ roots_items (flat_map (top_roots true) (iterchildren e))).
Proof.
  induction e as [t a x y cs IH] using node_induction.
  rewrite scope_props_children. cbn [iterchildren].
  induction IH as [|c cs Hc _ IHcs]; cbn [flat_map]; [apply Permutation_refl|].
  rewrite map_app, assigned_items_app, roots_items_app.
  eapply perm_trans; [|apply perm_interleave].
  apply Permutation_app; [|exact IHcs].
  rewrite scoped_elements_unfold, map_app, (top_roots_unfold true c),
    roots_items_app, if_truthy_truthy.
  unfold child_props.
  pose proof (classify_cases c) as Hk.
  destruct (classify c) as [p|p| |]; destruct Hk as [Hp Hs]; rewrite Hp, Hs;
    cbn [negb orb andb map app].
  - change (assigned_items [(p, VItem (item_of c))])
      with (all_items (item_of c) ++ []).
    rewrite app_nil_r. change (roots_items []) with (@nil Item).
    cbn [app].
    eapply perm_trans; [apply perm_skip, Hc|].
    change (item_of c
              :: assigned_items (scope_props c)
              ++ roots_items (flat_map (top_roots true) (iterchildren c)))
      with ((item_of c :: assigned_items (scope_props c))
              ++ roots_items (flat_map (top_roots true) (iterchildren c))).
    apply Permutation_app_tail, Permutation_sym, all_items_item_of.
  - rewrite assigned_items_app, assigned_items_plain
      by apply property_value_items.
    exact Hc.
  - change (assigned_items []) with (@nil Item).
    change (roots_items [c]) with (all_items (item_of c) ++ []).
    rewrite app_nil_r. cbn [app].
    eapply perm_trans; [apply perm_skip, Hc|].
    change (item_of c
              :: assigned_items (scope_props c)
              ++ roots_items (flat_map (top_roots true) (iterchildren c)))
      with ((item_of c :: assigned_items (scope_props c))
              ++ roots_items (flat_map (top_roots true) (iterchildren c))).
    apply Permutation_app_tail, Permutation_sym, all_items_item_of.
  - exact Hc.
Qed.

Lemma roots_items_scoped (e : node) :
  Permutation (roots_items (top_roots false e))
              (map item_of (scoped_elements e)).
Proof.
  induction e as [t a x y cs IH] using node_induction.
  rewrite top_roots_unfold, scoped_elements_unfold, roots_items_app, map_app.
  destruct (_is_itemscope (Element t a x y cs)) eqn:Hs;
    cbn [negb orb andb map app].
  - change (roots_items [Element t a x y cs])
      with (all_items (item_of (Element t a x y cs)) ++ []).
    rewrite app_nil_r.
    eapply perm_trans;
      [apply Permutation_app_tail, all_items_item_of|].
    cbn [app]. apply perm_skip, Permutation_sym, scoped_below_items.
  - change (roots_items []) with (@nil Item). cbn [app iterchildren]. clear Hs.
    induction IH as [|c cs Hc _ IHcs]; cbn [flat_map]; [apply Permutation_refl|].
    rewrite roots_items_app, map_app. now apply Permutation_app.
Qed.

Lemma scoped_elements_itemscope (e : node) :
  Forall (fun n => _is_itemscope n = true) (scoped_elements e).
Proof.
  induction e as [t a x y cs IH] using node_induction.
  rewrite scoped_elements_unfold. apply Forall_app. split.
  - destruct (_is_itemscope (Element t a x y cs)) eqn:Hs; constructor;
      [exact Hs | constructor].
  - cbn [iterchildren]. now apply Forall_flat_map.
Qed.

(** X8: every itemscope element of the tree gives exactly one Item,
    either an entry of the list [_find_items] returns or an Item nested,
    at some depth, in the properties of such an entry: the Items of the
    result, nested ones included, are, up to their order, the Items
    built for the itemscope elements of the tree, one for each; and the
    Item built for an element is the one [_make_item] and [_extract] give
    for it. *)
Theorem one_item_per_itemscope (e : node) :
  exists items,
    _find_items e = Ok items
    /\ Permutation (flat_map all_items items)
                   (map item_of (scoped_elements e))
    /\ Forall (fun n => _is_itemscope n = true
                        /\ (item <- _make_item n ;; _extract n item)
                           = Ok (item_of n, unlinked_of n))
              (scoped_elements e).
Proof.
  exists (map item_of (top_roots false e)).
  split; [apply find_items_roots|]. split.
  - rewrite flat_map_concat_map, map_map, <- flat_map_concat_map.
    apply roots_items_scoped.
  - eapply Forall_impl; [|apply scoped_elements_itemscope].
    cbv beta. intros n Hn. split; [exact Hn | now apply extract_item_of].
Qed.

(** ** Types and id of the Items *)

Lemma attrs_ok_unfold (i : Item) :
  attrs_ok i
  = types_ok (itemtype i) && id_ok (itemid i)
    && forallb (fun kv => forallb value_attrs_ok (snd kv)) (props i).
Proof. destruct i; reflexivity. Qed.

Lemma split_types_ok (s : string) :
  types_ok (Some (map (fun i => mkURI (Some i)) (split s))) = true.
Proof.
  unfold types_ok, split.
  pose proof (split_on_nonempty " " s) as Hne.
  pose proof (split_on_no_sep " " s) as Hno.
  destruct (split_on " " s) as [|p rest]; [contradiction|].
  change (forallb type_ok (map (fun i => mkURI (Some i)) (p :: rest)) = true).
  rewrite forallb_forall. intros u Hin. apply in_map_iff in Hin.
  destruct Hin as [piece [<- Hin]]. rewrite Forall_forall in Hno.
  unfold type_ok. simpl. now rewrite (Hno piece Hin).
Qed.

Lemma init_attrs_ok (t d : option string) : attrs_ok (__init__ t d) = true.
Proof.
  rewrite attrs_ok_unfold. simpl. rewrite andb_true_r.
  apply andb_true_iff. split.
  - destruct (truthy t) eqn:Ht; [|reflexivity].
    destruct t as [s|]; [|discriminate]. apply split_types_ok.
  - destruct (truthy d) eqn:Hd; [|reflexivity]. exact Hd.
Qed.

Lemma dict_append_attrs_ok (d : list (string * list value)) (k : string)
      (v : value) :
  forallb (fun kv => forallb value_attrs_ok (snd kv)) d = true ->
  value_attrs_ok v = true ->
  forallb (fun kv => forallb value_attrs_ok (snd kv)) (dict_append d k v) = true.
Proof.
  intros Hd Hv. induction d as [|[k0 vs] d IH]; simpl in *.
  - now rewrite Hv.
  - apply andb_true_iff in Hd. destruct Hd as [H0 Hd].
    destruct (k0 =? k); simpl.
    + rewrite Hd, andb_true_r, forallb_app, H0. simpl. now rewrite Hv.
    + now rewrite H0, (IH Hd).
Qed.

Lemma attrs_ok_set (self : Item) (k : string) (v : value) :
  attrs_ok self = true -> value_attrs_ok v = true ->
  attrs_ok (set self k v) = true.
Proof.
  rewrite !attrs_ok_unfold. unfold set. simpl. intros H Hv.
  apply andb_true_iff in H. destruct H as [H1 H2].
  rewrite H1. simpl. now apply dict_append_attrs_ok.
Qed.

Lemma attrs_ok_assign (kvs : list (string * value)) :
  Forall (fun kv => value_attrs_ok (snd kv) = true) kvs ->
  forall item, attrs_ok item = true -> attrs_ok (assign_all item kvs) = true.
Proof.
  induction 1 as [|kv kvs Hkv _ IH]; intros item Hi; simpl; [exact Hi|].
  apply IH. now apply attrs_ok_set.
Qed.

Lemma scope_props_attrs_ok (e : node) :
  Forall (fun kv => value_attrs_ok (snd kv) = true) (scope_props e).
Proof.
  induction e as [t a x y cs IH] using node_induction.
  rewrite scope_props_children. simpl.
  apply Forall_flat_map. eapply Forall_impl; [|exact IH].
  cbv beta. intros c Hc. unfold child_props.
  destruct (classify c).
  - constructor; [|constructor]. simpl. unfold item_of.
    apply attrs_ok_assign; [exact Hc | apply init_attrs_ok].
  - apply Forall_app. split; [|exact Hc].
    apply Forall_forall. intros kv Hin. apply in_map_iff in Hin.
    destruct Hin as [n [<- _]]. simpl.
    unfold _property_value, content_or_text, value_of_opt.
    repeat match goal with
           | |- context [match ?o with _ => _ end] => destruct o
           end; reflexivity.
  - constructor.
  - exact Hc.
Qed.

(** X9: in every Item [_find_items] returns, and in every Item nested in
    one, the list of types is absent or not empty and none of its types
    holds a space, and the id is absent or a non-empty string. *)
Theorem items_types_and_id (e : node) :
  exists items,
    _find_items e = Ok items
    /\ Forall (fun i => attrs_ok i = true) items.
Proof.
  exists (map item_of (top_roots false e)).
  split; [apply find_items_roots|].
  apply Forall_forall. intros i Hin. apply in_map_iff in Hin.
  destruct Hin as [n [<- _]]. unfold item_of.
  apply attrs_ok_assign; [apply scope_props_attrs_ok | apply init_attrs_ok].
Qed.

(** ** [_textiter] and [_text] *)

(** X11: the text of an element depends on its tag, its own text and its
    children only: neither its attributes nor its own tail contribute. *)
Theorem text_ignores_own_tail (t : string) (a a' : list (string * string))
        (x y y' : option string) (cs : list node) :
  _text (Element t a x y cs) = _text (Element t a' x y' cs).
Proof. rewrite !text_inner_text. reflexivity. Qed.

Lemma filtered_text_unfold (pr : node -> bool) (e : node) :
  filtered_text pr e
  = ((if pr e then str_of_opt (text e) else "")
       ++ filtered_children pr (iterchildren e))%string.
Proof. destruct e; reflexivity. Qed.

Lemma step_start (predicate : option (node -> bool)) (p : path) (e : node) :
  join "" (textiter_step predicate (ev_start, p, e))
  = if passes predicate e then str_of_opt (text e) else "".
Proof.
  unfold textiter_step, passes.
  destruct predicate as [pr|]; [destruct (pr e)|]; simpl;
    try reflexivity; apply join_yield_opt.
Qed.

Lemma step_end (predicate : option (node -> bool)) (p : path) (e : node) :
  join "" (textiter_step predicate (ev_end, p, e))
  = if passes predicate e && negb (is_walked_node p)
    then str_of_opt (tail e) else "".
Proof.
  unfold textiter_step, passes.
  destruct predicate as [pr|]; [destruct (pr e)|]; simpl;
    try reflexivity; destruct (is_walked_node p); simpl;
    try reflexivity; apply join_yield_opt.
Qed.

Lemma walk_filtered (predicate : option (node -> bool)) (e : node) :
  forall p,
    join "" (flat_map (textiter_step predicate) (iterwalk_from p e))
    = (filtered_text (passes predicate) e
         ++ (if passes predicate e && negb (is_walked_node p)
             then str_of_opt (tail e) else ""))%string.
Proof.
  induction e as [t a x y cs IH] using node_induction.
  intros p. simpl iterwalk_from.
  change ((ev_start, p, Element t a x y cs)
            :: walk_children iterwalk_from p 0 cs
            ++ [(ev_end, p, Element t a x y cs)])
    with ([(ev_start, p, Element t a x y cs)]
            ++ walk_children iterwalk_from p 0 cs
            ++ [(ev_end, p, Element t a x y cs)]).
  rewrite !flat_map_app, !join_app, !flat_map_one.
  rewrite step_start, step_end, filtered_text_unfold, str_app_assoc.
  f_equal. f_equal. simpl iterchildren.
  generalize 0 as i.
  induction IH as [|c cs Hc _ IHcs]; intros i; simpl; [reflexivity|].
  rewrite flat_map_app, join_app, Hc, IHcs.
  replace (is_walked_node (p ++ [i])) with false by now destruct p.
  rewrite andb_true_r. now rewrite str_app_assoc.
Qed.

(** X12: on a subtree made of elements only (no comment, no processing
    instruction), for every predicate, the strings [_textiter] yields,
    joined, are the text of every element of the subtree that passes the
    predicate and the tail of every proper descendant that passes it, in
    document order; without a predicate every element passes.  An element
    that fails the predicate loses its text and its tail, and its
    descendants are judged one by one. *)
Theorem textiter_filtered_text (e : node) (predicate : option (node -> bool)) :
  join "" (_textiter e predicate) = filtered_text (passes predicate) e.
Proof.
  unfold _textiter, iterwalk. rewrite walk_filtered. simpl.
  rewrite andb_false_r. apply str_app_nil_r.
Qed.

(** ** Names listed in one itemprop *)

Lemma split_on_no_sep_id (sep : ascii) (s : string) :
  contains_char sep s = false -> split_on sep s = [s].
Proof.
  induction s as [|c s IH]; simpl; [reflexivity|].
  intros H. apply orb_false_iff in H. destruct H as [Hc Hs].
  rewrite Hc, (IH Hs). reflexivity.
Qed.

Lemma split_on_app (sep : ascii) (p s : string) :
  contains_char sep p = false ->
  split_on sep (p ++ String sep s) = p :: split_on sep s.
Proof.
  induction p as [|c p IH]; simpl.
  - intros _. now rewrite Ascii.eqb_refl.
  - intros H. apply orb_false_iff in H. destruct H as [Hc Hp].
    rewrite Hc, (IH Hp). reflexivity.
Qed.

Lemma split_join (names : list string) :
  names <> [] ->
  Forall (fun n => contains_char " " n = false) names ->
  split (join " " names) = names.
Proof.
  unfold split. intros Hne Hall.
  induction Hall as [|n names Hn Hall IH]; [contradiction|].
  destruct names as [|m names].
  - simpl. now apply split_on_no_sep_id.
  - change (join " " (n :: m :: names))
      with (n ++ String " " (join " " (m :: names)))%string.
    rewrite (split_on_app _ _ _ Hn), IH; [reflexivity | discriminate].
Qed.

(** X13: an element without itemscope whose itemprop lists the names
    [n1 ... nk] separated by single spaces (no name holding a space, the
    attribute not empty) has its one property value stored under each of
    the names, in the Item in whose scope it lies. *)
Theorem property_stored_under_listed_names (e c : node) (item : Item)
        (listed : list string) :
  in_scope e c ->
  _is_itemscope c = false ->
  listed <> [] ->
  Forall (fun n => contains_char " " n = false) listed ->
  _attr c "itemprop" = Some (join " " listed) ->
  join " " listed <> "" ->
  exists item' unlinked,
    _extract e item = Ok (item', unlinked)
    /\ forall n, In n listed -> In (_property_value c) (get_all item' n).
Proof.
  intros Hscope Hs Hne Hall Hp Hstr.
  assert (Hk : classify c = Property (join " " listed)).
  { unfold classify, if_truthy. rewrite Hp, Hs. simpl.
    destruct (String.eqb_spec (join " " listed) ""); [contradiction|].
    reflexivity. }
  destruct (property_under_every_name e c item _ Hscope Hk)
    as [item' [unlinked [He Hin]]].
  exists item', unlinked. split; [exact He|].
  intros n Hn. apply Hin. now rewrite split_join.
Qed.

Lemma property_stored_under_listed_names_witness :
  in_scope Sample.fanout_doc
           (Element "span" [("itemprop", "a b")] (Some "X") None [])
  /\ exists item' unlinked,
       _extract Sample.fanout_doc (__init__ None None) = Ok (item', unlinked)
       /\ forall n, In n ["a"; "b"] -> In (VStr "X") (get_all item' n).
Proof.
  assert (Hscope : in_scope Sample.fanout_doc
                     (Element "span" [("itemprop", "a b")] (Some "X") None []))
    by (apply scope_child; simpl; now left).
  split; [exact Hscope|].
  apply (property_stored_under_listed_names Sample.fanout_doc
           (Element "span" [("itemprop", "a b")] (Some "X") None [])
           (__init__ None None) ["a"; "b"] Hscope).
  - reflexivity.
  - discriminate.
  - repeat constructor.
  - reflexivity.
  - discriminate.
Defined.

(** ** [Item.json_dict] *)

Lemma json_dict_unfold (self : Item) :
  json_dict self
  = (item <- (if Attr.is_true (Attr.item_itemtype self)
              then xs <- Attr.iter (Attr.item_itemtype self) ;;
                   ss <- Attr.comprehension Attr.string_of xs ;;
                   Ok [("type", PList ss)]
              else Ok []) ;;
     item <- (if Attr.is_true (Attr.item_itemid self)
              then s <- Attr.string_of (Attr.item_itemid self) ;;
                   Ok (item ++ [("id", s)])
              else Ok item) ;;
     properties <- json_names json_dict (props self) [] ;;
     Ok (item ++ [("properties",
                   PDict (map (fun kv => (fst kv, PList (snd kv))) properties))])).
Proof. destruct self; reflexivity. Qed.

Section JsonLoopFacts.
Variable rec : Item -> result (list (string * pyval)).

Lemma json_values_last (name : string) (vs : list value) :
  Forall (fun v => json_value rec v = Ok (render v)) vs ->
  forall acc l,
    ~ In name (map fst acc) ->
    json_values rec name vs (acc ++ [(name, l)])
    = Ok (acc ++ [(name, l ++ map render vs)]).
Proof.
  induction 1 as [|v vs Hv _ IH]; intros acc l Hf; simpl.
  - now rewrite app_nil_r.
  - rewrite Hv. simpl. rewrite (dict_append_last _ _ _ _ Hf), (IH _ _ Hf).
    now rewrite <- app_assoc.
Qed.

Lemma json_values_fresh (name : string) (v : value) (vs : list value) :
  Forall (fun v => json_value rec v = Ok (render v)) (v :: vs) ->
  forall acc,
    ~ In name (map fst acc) ->
    json_values rec name (v :: vs) acc
    = Ok (acc ++ [(name, map render (v :: vs))]).
Proof.
  intros Hall acc Hf. inversion Hall as [|? ? Hv Hvs]; subst. simpl.
  rewrite Hv. simpl. rewrite (dict_append_fresh _ _ _ Hf).
  now rewrite (json_values_last _ _ Hvs _ _ Hf).
Qed.

Lemma json_names_ok (ps : list (string * list value)) :
  NoDup (map fst ps) ->
  Forall (fun kv => snd kv <> []
                    /\ Forall (fun v => json_value rec v = Ok (render v)) (snd kv))
         ps ->
  forall acc,
    (forall k, In k (map fst ps) -> ~ In k (map fst acc)) ->
    json_names rec ps acc
    = Ok (acc ++ map (fun kv => (fst kv, map render (snd kv))) ps).
Proof.
  induction ps as [|[k vs] ps IH]; intros Hnd Hall acc Hf; simpl.
  - now rewrite app_nil_r.
  - inversion Hnd as [|? ? Hk Hnd']; subst.
    inversion Hall as [|? ? [Hne Hvs] Hall']; subst. simpl in *.
    destruct vs as [|v vs]; [contradiction|].
    rewrite (json_values_fresh _ _ _ Hvs); [|apply Hf; now left]. simpl.
    rewrite (IH Hnd' Hall').
    + now rewrite <- app_assoc.
    + intros k' Hin. rewrite map_app, in_app_iff. simpl.
      intros [Hacc | [Heq | []]].
      * apply (Hf k'); [now right | exact Hacc].
      * subst. contradiction.
Qed.

End JsonLoopFacts.

Lemma comprehension_uris (l : list URI) :
  Attr.comprehension Attr.string_of (map PURI l)
  = Ok (map (fun u => pyval_of_opt (uri_string u)) l).
Proof.
  induction l as [|u l IH]; simpl; [reflexivity|]. now rewrite IH.
Qed.

Lemma names_unique_unfold (i : Item) :
  names_unique i
  = nodupb (map fst (props i))
    && forallb
         (fun kv =>
            forallb (fun v => match v with VItem j => names_unique j | _ => true end)
                    (snd kv))
         (props i).
Proof. destruct i; reflexivity. Qed.

Lemma no_shadow_unfold (i : Item) :
  no_shadow i
  = (match itemtype i with
     | Some _ => true
     | None => negb (existsb (String.eqb "itemtype") (map fst (props i)))
     end)
    && (match itemid i with
        | Some _ => true
        | None => negb (existsb (String.eqb "itemid") (map fst (props i)))
        end)
    && forallb
         (fun kv =>
            forallb (fun v => match v with VItem j => no_shadow j | _ => true end)
                    (snd kv))
         (props i).
Proof. destruct i; reflexivity. Qed.

Lemma unset_attribute_absent (o : option URI) (k : string)
      (ps : list (string * list value)) :
  match o with
  | Some _ => true
  | None => negb (existsb (String.eqb k) (map fst ps))
  end = true ->
  o = None -> dict_get ps k = None.
Proof.
  intros H ->. apply negb_true_iff, existsb_eqb_false in H.
  now apply dict_get_absent.
Qed.

Lemma unset_types_absent (o : option (list URI)) (k : string)
      (ps : list (string * list value)) :
  match o with
  | Some _ => true
  | None => negb (existsb (String.eqb k) (map fst ps))
  end = true ->
  o = None -> dict_get ps k = None.
Proof.
  intros H ->. apply negb_true_iff, existsb_eqb_false in H.
  now apply dict_get_absent.
Qed.

Lemma json_type_entry (self : Item) :
  match itemtype self with
  | Some _ => true
  | None => negb (existsb (String.eqb "itemtype") (map fst (props self)))
  end = true ->
  (if Attr.is_true (Attr.item_itemtype self)
   then xs <- Attr.iter (Attr.item_itemtype self) ;;
        ss <- Attr.comprehension Attr.string_of xs ;;
        Ok [("type", PList ss)]
   else Ok [])
  = Ok match itemtype self with
       | Some (u :: l) =>
           [("type", PList (map (fun u => pyval_of_opt (uri_string u)) (u :: l)))]
       | _ => []
       end.
Proof.
  intros H. unfold Attr.item_itemtype, get, get_all.
  destruct (itemtype self) as [[|u l]|] eqn:Ht.
  - reflexivity.
  - change (Attr.is_true (PList (map PURI (u :: l)))) with true.
    cbn [Attr.iter Py.bind]. now rewrite comprehension_uris.
  - now rewrite (unset_types_absent None "itemtype" (props self) H eq_refl).
Qed.

Lemma json_id_entry (self : Item) (item : list (string * pyval)) :
  match itemid self with
  | Some _ => true
  | None => negb (existsb (String.eqb "itemid") (map fst (props self)))
  end = true ->
  (if Attr.is_true (Attr.item_itemid self)
   then s <- Attr.string_of (Attr.item_itemid self) ;; Ok (item ++ [("id", s)])
   else Ok item)
  = Ok (item ++ match itemid self with
                | Some u => [("id", pyval_of_opt (uri_string u))]
                | None => []
                end).
Proof.
  intros H. unfold Attr.item_itemid, get, get_all.
  destruct (itemid self) as [u|] eqn:Hd.
  - reflexivity.
  - rewrite (unset_attribute_absent None "itemid" (props self) H eq_refl).
    simpl. now rewrite app_nil_r.
Qed.

Lemma to_record_unfold (i : Item) :
  to_record i
  = match itemtype i with
    | Some (u :: l) =>
        [("type", PList (map (fun u => pyval_of_opt (uri_string u)) (u :: l)))]
    | _ => []
    end
      ++ match itemid i with
         | Some u => [("id", pyval_of_opt (uri_string u))]
         | None => []
         end
      ++ [("properties",
           PDict (map (fun kv => (fst kv, PList (map render (snd kv))))
                      (props i)))].
Proof. destruct i; reflexivity. Qed.

Lemma json_dict_to_record (i : Item) :
  names_unique i = true -> props_ok i = true -> no_shadow i = true ->
  json_dict i = Ok (to_record i).
Proof.
  induction i as [t d ps IH] using Item_induction.
  intros Hu Hp Hs.
  rewrite names_unique_unfold in Hu. rewrite props_ok_unfold in Hp.
  rewrite no_shadow_unfold in Hs. cbn [props itemtype itemid] in Hu, Hp, Hs.
  apply andb_true_iff in Hu. destruct Hu as [Hnd Hu].
  apply andb_true_iff in Hs. destruct Hs as [Hs Hsn].
  apply andb_true_iff in Hs. destruct Hs as [Hst Hsd].
  apply nodupb_NoDup in Hnd.
  rewrite forallb_forall in Hu, Hp, Hsn.
  assert (Hloop : json_names json_dict ps []
                  = Ok (map (fun kv => (fst kv, map render (snd kv))) ps)).
  { rewrite (json_names_ok json_dict ps Hnd); [reflexivity| |intros k _ []].
    apply Forall_forall. intros kv Hin.
    specialize (Hu kv Hin). specialize (Hp kv Hin). specialize (Hsn kv Hin).
    rewrite Forall_forall in IH. specialize (IH kv Hin).
    apply andb_true_iff in Hp. destruct Hp as [Hne Hp].
    split; [destruct (snd kv); [discriminate Hne | discriminate]|].
    rewrite forallb_forall in Hu, Hp, Hsn. rewrite Forall_forall in IH.
    apply Forall_forall. intros v Hv.
    specialize (Hu v Hv). specialize (Hp v Hv). specialize (Hsn v Hv).
    specialize (IH v Hv).
    destruct v as [|s|u|j]; simpl; try reflexivity.
    simpl in IH, Hp. now rewrite (IH Hu Hp Hsn). }
  rewrite json_dict_unfold, to_record_unfold.
  rewrite (json_type_entry (mkItem t d ps) Hst). cbn [Py.bind].
  rewrite (json_id_entry (mkItem t d ps) _ Hsd). cbn [Py.bind props].
  rewrite Hloop. cbn [Py.bind]. now rewrite map_map, <- app_assoc.
Qed.

(** X14: for an Item (with the Items nested in it) in which every name
    occurs once, no name has an empty list, and no property is named
    like an attribute that was left unset, [json_dict] returns the record
    read off the fields: "type" and "id" when present, then "properties"
    with the names in their order and under each name its values in
    their order. *)
Theorem json_dict_record (i : Item) :
  names_unique i = true -> props_ok i = true -> no_shadow i = true ->
  json_dict i = Ok (to_record i).
Proof. apply json_dict_to_record. Qed.

Lemma json_dict_record_witness :
  names_unique Sample.outer_item = true
  /\ props_ok Sample.outer_item = true
  /\ no_shadow Sample.outer_item = true
  /\ json_dict Sample.outer_item = Ok (to_record Sample.outer_item).
Proof.
  assert (Hu : names_unique Sample.outer_item = true) by reflexivity.
  assert (Hp : props_ok Sample.outer_item = true) by reflexivity.
  assert (Hs : no_shadow Sample.outer_item = true) by reflexivity.
  repeat (split; [assumption|]).
  exact (json_dict_record Sample.outer_item Hu Hp Hs).
Defined.


Lemma names_unique_set (self : Item) (k : string) (v : value) :
  names_unique self = true -> value_names_unique v = true ->
  names_unique (set self k v) = true.
Proof.
  rewrite !names_unique_unfold. intros H Hv.
  apply andb_true_iff in H. destruct H as [H1 H2].
  apply andb_true_iff. split.
  - unfold set. cbn [props]. rewrite names_dict_append.
    destruct (existsb (String.eqb k) (map fst (props self))) eqn:E;
      [exact H1 | now apply nodupb_snoc].
  - unfold set. cbn [props].
    now apply (dict_append_forall value_names_unique).
Qed.

Lemma names_unique_assign (kvs : list (string * value)) :
  Forall (fun kv => value_names_unique (snd kv) = true) kvs ->
  forall item,
    names_unique item = true -> names_unique (assign_all item kvs) = true.
Proof.
  induction 1 as [|kv kvs Hkv _ IH]; intros item Hi; simpl; [exact Hi|].
  apply IH. now apply names_unique_set.
Qed.

Lemma property_value_plain (e : node) :
  match _property_value e with VItem _ => False | _ => True end.
Proof.
  pose proof (property_value_cases e) as H.
  destruct (dict_get property_values (tag e)) as [attrib|].
  - destruct H as [_ ->].
    destruct ((attrib =? "href") || (attrib =? "src")); [exact I|].
    now destruct (_attr e attrib).
  - destruct H as [s ->]. exact I.
Qed.

Lemma scope_props_names_unique (e : node) :
  Forall (fun kv => value_names_unique (snd kv) = true) (scope_props e).
Proof.
  induction e as [t a x y cs IH] using node_induction.
  rewrite scope_props_children. simpl.
  apply Forall_flat_map. eapply Forall_impl; [|exact IH].
  cbv beta. intros c Hc. unfold child_props.
  destruct (classify c).
  - constructor; [|constructor]. simpl. unfold item_of.
    now apply names_unique_assign.
  - apply Forall_app. split; [|exact Hc].
    apply Forall_forall. intros kv Hin. apply in_map_iff in Hin.
    destruct Hin as [n [<- _]]. simpl.
    pose proof (property_value_plain c) as Hv.
    now destruct (_property_value c).
  - constructor.
  - exact Hc.
Qed.

Lemma item_of_names_unique (e : node) : names_unique (item_of e) = true.
Proof.
  unfold item_of. now apply names_unique_assign; [apply scope_props_names_unique|].
Qed.


Lemma no_shadow_set (self : Item) (k : string) (v : value) :
  no_shadow self = true -> plain_name k = true -> value_no_shadow v = true ->
  no_shadow (set self k v) = true.
Proof.
  rewrite !no_shadow_unfold. unfold set. cbn [props itemtype itemid].
  intros H Hk Hv.
  apply andb_true_iff in H. destruct H as [H Hn].
  apply andb_true_iff in H. destruct H as [Ht Hd].
  unfold plain_name in Hk. apply andb_true_iff in Hk.
  destruct Hk as [Hk1 Hk2]. apply negb_true_iff in Hk1, Hk2.
  rewrite names_dict_append.
  assert (Hadd : forall a,
             a <> k ->
             negb (existsb (String.eqb a) (map fst (props self))) = true ->
             negb (existsb (String.eqb a)
                     (if existsb (String.eqb k) (map fst (props self))
                      then map fst (props self)
                      else map fst (props self) ++ [k])) = true).
  { intros a Ha H0.
    destruct (existsb (String.eqb k) (map fst (props self))); [exact H0|].
    rewrite existsb_app. apply negb_true_iff in H0. rewrite H0. simpl.
    destruct (String.eqb_spec a k); [contradiction | reflexivity]. }
  apply andb_true_iff. split; [apply andb_true_iff; split|].
  - destruct (itemtype self); [reflexivity|].
    apply Hadd; [|exact Ht]. intros Heq. rewrite <- Heq in Hk1.
    now rewrite String.eqb_refl in Hk1.
  - destruct (itemid self); [reflexivity|].
    apply Hadd; [|exact Hd]. intros Heq. rewrite <- Heq in Hk2.
    now rewrite String.eqb_refl in Hk2.
  - now apply (dict_append_forall value_no_shadow).
Qed.

Lemma no_shadow_assign (kvs : list (string * value)) :
  Forall (fun kv => plain_name (fst kv) = true
                    /\ value_no_shadow (snd kv) = true) kvs ->
  forall item, no_shadow item = true -> no_shadow (assign_all item kvs) = true.
Proof.
  induction 1 as [|kv kvs [Hk Hv] _ IH]; intros item Hi; simpl; [exact Hi|].
  apply IH. now apply no_shadow_set.
Qed.

Lemma no_shadow_init (t d : option string) : no_shadow (__init__ t d) = true.
Proof.
  rewrite no_shadow_unfold. unfold __init__. cbn [props itemtype itemid].
  destruct (truthy t), (truthy d); try destruct t; reflexivity.
Qed.

Lemma plain_names_unfold (e : node) :
  plain_names e
  = match if_truthy (_attr e "itemprop") with
    | Some p => plain_name p && forallb plain_name (split p)
    | None => true
    end
    && forallb plain_names (iterchildren e).
Proof. destruct e; reflexivity. Qed.

Lemma scope_props_no_shadow (e : node) :
  forallb plain_names (iterchildren e) = true ->
  Forall (fun kv => plain_name (fst kv) = true
                    /\ value_no_shadow (snd kv) = true) (scope_props e).
Proof.
  induction e as [t a x y cs IH] using node_induction.
  rewrite scope_props_children. cbn [iterchildren]. intros Hcs.
  rewrite forallb_forall in Hcs.
  apply Forall_flat_map. rewrite Forall_forall in *. intros c Hin.
  specialize (IH c Hin). specialize (Hcs c Hin).
  rewrite plain_names_unfold in Hcs. apply andb_true_iff in Hcs.
  destruct Hcs as [Hp Hsub]. specialize (IH Hsub).
  unfold child_props. pose proof (classify_cases c) as Hk.
  destruct (classify c) as [p|p| |]; destruct Hk as [Hip _];
    rewrite Hip in Hp.
  - apply andb_true_iff in Hp. destruct Hp as [Hp _].
    constructor; [|constructor]. split; [exact Hp|].
    simpl. unfold item_of. apply no_shadow_assign; [exact IH|].
    apply no_shadow_init.
  - apply andb_true_iff in Hp. destruct Hp as [_ Hp].
    rewrite forallb_forall in Hp. apply Forall_app. split; [|exact IH].
    apply Forall_forall. intros kv Hkv.
    apply in_map_iff in Hkv. destruct Hkv as [n [<- Hn]]. simpl.
    split; [now apply Hp|].
    pose proof (property_value_plain c) as Hv.
    now destruct (_property_value c).
  - constructor.
  - exact IH.
Qed.

Lemma plain_names_top_roots (e : node) :
  plain_names e = true ->
  forall inside, Forall (fun r => plain_names r = true) (top_roots inside e).
Proof.
  induction e as [t a x y cs IH] using node_induction.
  intros Hp inside. rewrite top_roots_unfold. apply Forall_app. split.
  - destruct (_ && _); constructor; [exact Hp | constructor].
  - cbn [iterchildren]. rewrite plain_names_unfold in Hp.
    apply andb_true_iff in Hp. destruct Hp as [_ Hcs]. cbn [iterchildren] in Hcs.
    rewrite forallb_forall in Hcs.
    apply Forall_flat_map. rewrite Forall_forall in *. intros c Hin.
    apply (IH c Hin). now apply Hcs.
Qed.

(** X15: when no itemprop of the document is, or lists, the name
    "itemtype" or "itemid", [json_dict] raises on none of the Items
    [_find_items] returns: each gives the record read off its fields. *)
Theorem find_items_json_dict (e : node) :
  plain_names e = true ->
  exists items,
    _find_items e = Ok items
    /\ Forall (fun i => json_dict i = Ok (to_record i)) items.
Proof.
  intros Hp. exists (map item_of (top_roots false e)).
  split; [apply find_items_roots|].
  apply Forall_forall. intros i Hin. apply in_map_iff in Hin.
  destruct Hin as [r [<- Hr]].
  pose proof (plain_names_top_roots e Hp false) as Hall.
  rewrite Forall_forall in Hall. specialize (Hall r Hr).
  rewrite plain_names_unfold in Hall. apply andb_true_iff in Hall.
  destruct Hall as [_ Hcs].
  apply json_dict_to_record;
    [apply item_of_names_unique | apply item_of_ok |].
  unfold item_of. apply no_shadow_assign; [|apply no_shadow_init].
  now apply scope_props_no_shadow.
Qed.

Lemma find_items_json_dict_witness :
  plain_names Sample.nested_doc = true
  /\ exists items,
       _find_items Sample.nested_doc = Ok items
       /\ Forall (fun i => json_dict i = Ok (to_record i)) items.
Proof.
  assert (H : plain_names Sample.nested_doc = true) by reflexivity.
  split; [exact H|].
  exact (find_items_json_dict Sample.nested_doc H).
Defined.
